(** * FinSight dashboard client: live-data hooks, access gate, enrollment flow

    A shallow embedding of the behavioural core of the FinSight front end:
    the polling hooks ([useSignals], [useMarkets], [useChartData],
    [useWatchlist]), the helper [fetchJSON], and the handlers of the
    [FinSight] page component ([isLocked], [handleAddTicker],
    [handleBetaSubmit], [handleBetaVerify], [openUpgrade]).

    React state cells are fields of a record, a setter call is a record
    update, and every value that comes from the network is an argument of the
    function that consumes it.  Requests issued and [console.error] lines are
    appended to traces kept next to the state. *)

From stdpp Require Import gmap strings list pretty.
From Stdlib Require Import Ascii ZArith.

Local Open Scope Z_scope.

(** ** JavaScript values used by the page *)

(** A JavaScript string is represented by its UTF-8 encoding: a [string]
    holds the bytes, one to four per character.  [trim] removes the characters that ECMAScript counts as white
    space or line terminators:
    U+0009 to U+000D, U+0020, U+00A0, U+1680, U+2000 to U+200A, U+2028,
    U+2029, U+202F, U+205F, U+3000 and U+FEFF. *)
Module JsString.

(** A white-space character of one byte: U+0009 to U+000D and U+0020. *)
Definition white1 (a : ascii) : bool := Ascii.is_space a.

(** A white-space character of two bytes: U+00A0, encoded C2 A0. *)
Definition white2 (a b : ascii) : bool :=
  Nat.eqb (nat_of_ascii a) 194 && Nat.eqb (nat_of_ascii b) 160.

(** A white-space character of three bytes: U+1680 (E1 9A 80), U+2000 to
    U+200A (E2 80 80 to E2 80 8A), U+2028, U+2029, U+202F (E2 80 A8, A9,
    AF), U+205F (E2 81 9F), U+3000 (E3 80 80) and U+FEFF (EF BB BF). *)
Definition white3 (a b c : ascii) : bool :=
  let x := nat_of_ascii a in
  let y := nat_of_ascii b in
  let z := nat_of_ascii c in
  (Nat.eqb x 225 && Nat.eqb y 154 && Nat.eqb z 128)
  || (Nat.eqb x 226 && Nat.eqb y 128
      && ((Nat.leb 128 z && Nat.leb z 138) || Nat.eqb z 168 || Nat.eqb z 169 || Nat.eqb z 175))
  || (Nat.eqb x 226 && Nat.eqb y 129 && Nat.eqb z 159)
  || (Nat.eqb x 227 && Nat.eqb y 128 && Nat.eqb z 128)
  || (Nat.eqb x 239 && Nat.eqb y 187 && Nat.eqb z 191).

(** The text after the white-space character that [s] starts with, if it
    starts with one. *)
Definition takeWhite (s : string) : option string :=
  match s with
  | String a s1 =>
      if white1 a then Some s1
      else
        match s1 with
        | String b s2 =>
            if white2 a b then Some s2
            else
              match s2 with
              | String c s3 => if white3 a b c then Some s3 else None
              | EmptyString => None
              end
        | EmptyString => None
        end
  | EmptyString => None
  end.

Fixpoint trimStart (s : string) : string :=
  match s with
  | String a s1 =>
      if white1 a then trimStart s1
      else
        match s1 with
        | String b s2 =>
            if white2 a b then trimStart s2
            else
              match s2 with
              | String c s3 => if white3 a b c then trimStart s3 else s
              | EmptyString => s
              end
        | EmptyString => s
        end
  | EmptyString => EmptyString
  end.

(** The text consists of white-space characters only. *)
Fixpoint allWhite (s : string) : bool :=
  match s with
  | String a s1 =>
      if white1 a then allWhite s1
      else
        match s1 with
        | String b s2 =>
            if white2 a b then allWhite s2
            else
              match s2 with
              | String c s3 => if white3 a b c then allWhite s3 else false
              | EmptyString => false
              end
        | EmptyString => false
        end
  | EmptyString => true
  end.

(** [trimEnd] cuts the text where its longest white-space end begins. *)
Fixpoint trimEnd (s : string) : string :=
  match s with
  | EmptyString => EmptyString
  | String c s' => if allWhite s then EmptyString else String c (trimEnd s')
  end.

Definition trim (s : string) : string := trimEnd (trimStart s).

(** Truthiness of a string: only the empty string is falsy. *)
Definition truthy (s : string) : bool :=
  match s with EmptyString => false | _ => true end.

(** The text starts with a white-space character. *)
Definition startsWhite (s : string) : bool :=
  match takeWhite s with Some _ => true | None => false end.

(** The text is one white-space character. *)
Definition isWhite (s : string) : bool :=
  match takeWhite s with Some EmptyString => true | _ => false end.

(** The text ends with a white-space character. *)
Fixpoint endsWhite (s : string) : bool :=
  match s with
  | EmptyString => false
  | String _ s' => isWhite s || endsWhite s'
  end.

(** Texts of ASCII characters, and what [String.prototype.toUpperCase] does
    to them: the letters a to z become A to Z, every other character stays.
    The method itself, which maps all of Unicode, is a parameter of
    [handleAddTicker]. *)
Fixpoint isAscii (s : string) : bool :=
  match s with
  | EmptyString => true
  | String c s' => Nat.ltb (nat_of_ascii c) 128 && isAscii s'
  end.

Definition isLower (c : ascii) : bool :=
  let n := nat_of_ascii c in (Nat.leb 97 n) && (Nat.leb n 122).

Definition upperChar (c : ascii) : ascii :=
  if isLower c then ascii_of_nat (nat_of_ascii c - 32) else c.

Fixpoint upperAscii (s : string) : string :=
  match s with
  | EmptyString => EmptyString
  | String c s' => String (upperChar c) (upperAscii s')
  end.

Fixpoint noLower (s : string) : bool :=
  match s with
  | EmptyString => true
  | String c s' => negb (isLower c) && noLower s'
  end.

End JsString.

(** A value read from a JSON object field that the page treats as text:
    the field is absent ([undefined]) or holds a string. *)
Inductive jsval : Type :=
| undefined
| str (s : string).

Global Instance jsval_eq_dec : EqDecision jsval.
Proof. solve_decision. Defined.

(** [v || fallback] where [fallback] is a string literal. *)
Definition or_else (v : jsval) (fallback : string) : string :=
  match v with
  | str s => if JsString.truthy s then s else fallback
  | undefined => fallback
  end.

(** Strict equality of a value with a string literal, [v === "lit"]. *)
Definition strict_eq (v : jsval) (lit : string) : bool :=
  bool_decide (v = str lit).

(** ** Signal entries *)

(** A signal object as parsed from the feed.  [ref] is the identity of the
    object (two objects are [===] exactly when they are the same object);
    the other fields are the ones the modelled code reads. *)
Record entry (Id : Type) : Type := Entry {
  ref : nat;
  id : Id;
  signal : string;
}.
Arguments Entry {Id} _ _ _.
Arguments ref {Id} _.
Arguments id {Id} _.
Arguments signal {Id} _.

(** Objects of one parsed array are pairwise distinct objects. *)
Definition distinct_objects {Id} (l : list (entry Id)) : Prop :=
  NoDup (ref <$> l).

(** ** Access gate: [filtered], [isLocked] and the signal list rendering *)
Module Gate.
Section Gate.
Context {Id : Type}.
Implicit Types (signals : list (entry Id)) (s : entry Id).

(** [Array.prototype.indexOf]: first index holding the same object, -1 when
    there is none. *)
Fixpoint indexOf signals s : Z :=
  match signals with
  | [] => -1
  | x :: rest =>
      if Nat.eqb (ref x) (ref s) then 0
      else let i := indexOf rest s in if i <? 0 then -1 else i + 1
  end.

(** [filter === "ALL" ? signals : signals.filter(s => s.signal === filter)] *)
Definition filtered (filter : string) signals : list (entry Id) :=
  if bool_decide (filter = "ALL") then signals
  else List.filter (fun s => bool_decide (signal s = filter)) signals.

(** [plan === "FREE" && signals.indexOf(s) >= 3] *)
Definition isLocked (plan : jsval) signals s : bool :=
  strict_eq plan "FREE" && (3 <=? indexOf signals s).

(** What the signals tab shows for one entry. *)
Inductive card : Type :=
| LockedPlaceholder (key : Id)
| SignalCard (key : Id) (isNew : bool).

Definition render `{EqDecision Id} (plan : jsval) (filter : string)
    (newId : option Id) signals : list card :=
  List.map (fun item =>
              if isLocked plan signals item then LockedPlaceholder (id item)
              else SignalCard (id item) (bool_decide (Some (id item) = newId)))
           (filtered filter signals).

End Gate.
End Gate.

(** ** The HTTP primitive: [fetchJSON] *)
Module Api.

(** What [fetch] hands back.  [json] is the parsed body, [None] when
    [res.json()] rejects (the body is not JSON). *)
Record response (T : Type) : Type := Response {
  ok : bool;
  status : nat;
  json : option T;
}.
Arguments Response {T} _ _ _.
Arguments ok {T} _.
Arguments status {T} _.
Arguments json {T} _.

(** The promise returned by [fetch] rejects (transport failure) or resolves
    with a response. *)
Inductive fetched (T : Type) : Type :=
| Rejected (reason : string)
| Resolved (res : response T).
Arguments Rejected {T} _.
Arguments Resolved {T} _.

(** Outcome of an awaited call: a value, or a thrown error. *)
Inductive result (T : Type) : Type :=
| Ok (data : T)
| Thrown (e : string).
Arguments Ok {T} _.
Arguments Thrown {T} _.

(** [if (!res.ok) throw new Error(`API error: ${res.status}`); return res.json();] *)
Definition fetchJSON {T} (f : fetched T) : result T :=
  match f with
  | Rejected reason => Thrown reason
  | Resolved res =>
      if ok res then
        match json res with
        | Some data => Ok data
        | None => Thrown "SyntaxError"
        end
      else Thrown ("API error: " +:+ pretty (status res))
  end.

(** The payload of the last successful outcome in a sequence of outcomes
    (each with the clock at which it settled), [start] when none
    succeeded. *)
Definition last_success {T} (start : T) (l : list (Z * fetched T)) : T :=
  foldl (fun held a => match fetchJSON a.2 with Ok data => data | Thrown _ => held end)
        start l.

(** A request as it leaves the page; [body] lists the fields of the
    object given to [JSON.stringify]. *)
Record request : Type := Request {
  method : string;
  path : string;
  body : list (string * string);
}.

Definition GET (p : string) : request := Request "GET" p [].
Definition DELETE (p : string) : request := Request "DELETE" p [].
Definition POST (p : string) (b : list (string * string)) : request :=
  Request "POST" p b.

End Api.
Import Api.

(** ** The polling hooks

    Every hook is an instance of one pattern: a [load] that awaits
    [fetchJSON], stores the payload on success, logs on failure and clears
    [loading] in its [finally]; and an effect that calls [load], starts an
    interval and returns a clean-up that clears it.  [hook S] is the state
    around the hook's own cells [S]:
    - [console], [requests]: the lines logged and the requests issued;
    - [inflight]: the calls of [load] suspended at their [await];
    - [timers]: the active intervals of the runtime, each with the path its
      captured [load] fetches; [next_timer] is the next fresh handle;
    - [interval]: the handle held by the clean-up of the effect now in
      place. *)
Record hook (S : Type) : Type := Hook {
  cells : S;
  console : list string;
  requests : list request;
  inflight : nat;
  timers : gmap nat string;
  next_timer : nat;
  interval : option nat;
}.
Arguments Hook {S} _ _ _ _ _ _ _.
Arguments cells {S} _.
Arguments console {S} _.
Arguments requests {S} _.
Arguments inflight {S} _.
Arguments timers {S} _.
Arguments next_timer {S} _.
Arguments interval {S} _.

Module Poller.
Section Poller.
Context {S T : Type}.
(** The parts in which the hooks differ: the state update of the [try]
    block (given the clock and the payload), the one of the [finally]
    block, and the text of the [console.error]. *)
Variable resolve : Z -> T -> S -> S.
Variable finish : S -> S.
Variable message : string.

Definition initial (s : S) : hook S := Hook s [] [] 0%nat ∅ 0%nat None.

Definition set_cells (s : S) (h : hook S) : hook S :=
  Hook s (console h) (requests h) (inflight h) (timers h) (next_timer h) (interval h).

Definition console_error (line : string) (h : hook S) : hook S :=
  Hook (cells h) (console h ++ [line]) (requests h) (inflight h) (timers h)
       (next_timer h) (interval h).

Definition issue (r : request) (h : hook S) : hook S :=
  Hook (cells h) (console h) (requests h ++ [r]) (inflight h) (timers h)
       (next_timer h) (interval h).

(** [load], up to its [await]: the request leaves. *)
Definition load_begin (url : string) (h : hook S) : hook S :=
  Hook (cells h) (console h) (requests h ++ [GET url]) (Datatypes.S (inflight h))
       (timers h) (next_timer h) (interval h).

(** The state updates of [load] once its [fetchJSON] has settled. *)
Definition load_body (now : Z) (f : fetched T) (h : hook S) : hook S :=
  match fetchJSON f with
  | Ok data => set_cells (finish (resolve now data (cells h))) h
  | Thrown e => set_cells (finish (cells h)) (console_error (message +:+ " " +:+ e) h)
  end.

(** [load], from its [await] on, for one of the suspended calls, in a
    mounted component: the setters take effect. *)
Definition load_resume (now : Z) (f : fetched T) (h : hook S) : hook S :=
  match inflight h with
  | O => h
  | Datatypes.S n =>
      load_body now f
        (Hook (cells h) (console h) (requests h) n (timers h) (next_timer h) (interval h))
  end.

(** One whole attempt, nothing else happening in between. *)
Definition load (url : string) (now : Z) (f : fetched T) (h : hook S) : hook S :=
  load_resume now f (load_begin url h).

(** [const interval = setInterval(load, pollMs)] *)
Definition setInterval (url : string) (h : hook S) : hook S :=
  Hook (cells h) (console h) (requests h) (inflight h)
       (<[next_timer h := url]> (timers h)) (Datatypes.S (next_timer h))
       (Some (next_timer h)).

(** The effect body: [load(); const interval = setInterval(load, pollMs);] *)
Definition effect (url : string) (h : hook S) : hook S :=
  setInterval url (load_begin url h).

(** The clean-up: [() => clearInterval(interval)] *)
Definition cleanup (h : hook S) : hook S :=
  match interval h with
  | Some i =>
      Hook (cells h) (console h) (requests h) (inflight h)
           (delete i (timers h)) (next_timer h) None
  | None => h
  end.

(** The runtime fires interval [i]: its callback runs if [i] is active. *)
Definition tick (i : nat) (h : hook S) : hook S :=
  match timers h !! i with
  | Some url => load_begin url h
  | None => h
  end.

(** What can happen to the hook of a mounted component.  [Effect url] is
    React running the effect (at mount, or after a clean-up when a
    dependency changed) with the [load] of the current render; [Cleanup] is
    React running the clean-up before it runs the effect again.  The unmount,
    after which React ignores the setters, is an event of [Component]. *)
Inductive event : Type :=
| Effect (url : string)
| Cleanup
| Tick (i : nat)
| Settle (now : Z) (f : fetched T).

Definition step (h : hook S) (e : event) : hook S :=
  match e with
  | Effect url => effect url h
  | Cleanup => cleanup h
  | Tick i => tick i h
  | Settle now f => load_resume now f h
  end.

Definition run (h : hook S) (evs : list event) : hook S := foldl step h evs.

(** Events that are not a run of the effect. *)
Definition no_effect (e : event) : bool :=
  match e with Effect _ => false | _ => true end.

(** The interval table holds the interval of the effect in place and no
    other; handles at or above [next_timer] are unused. *)
Definition tidy (h : hook S) : Prop :=
  match interval h with
  | Some i => (i < next_timer h)%nat ∧ dom (timers h) = {[ i ]}
  | None => timers h = ∅
  end.

(** The state update of one settled attempt, on the cells alone. *)
Definition settle_cells (a : Z * fetched T) (s : S) : S :=
  match fetchJSON a.2 with
  | Ok data => finish (resolve a.1 data s)
  | Thrown _ => finish s
  end.

(** A sequence of whole attempts, each with its clock and outcome. *)
Definition attempts (url : string) (h : hook S) (l : list (Z * fetched T)) : hook S :=
  foldl (fun h a => load url a.1 a.2 h) h l.

End Poller.
End Poller.

(** The cells of a hook that holds one payload: [useMarkets],
    [useChartData], [useWatchlist]. *)
Record plain (T : Type) : Type := Plain {
  payload : T;
  loading : bool;
}.
Arguments Plain {T} _ _.
Arguments payload {T} _.
Arguments loading {T} _.

Definition setPayload {T} (data : T) (s : plain T) : plain T := Plain data (loading s).
Definition setLoading {T} (b : bool) (s : plain T) : plain T := Plain (payload s) b.

(** *** [useMarkets] *)
Module useMarkets.
Section useMarkets.
(** The overview object, [{ indices, commodities, crypto }]. *)
Context {Markets : Type}.

Definition url : string := "/api/markets/overview".
Definition message : string := "Failed to fetch markets:".

Definition init (empty : Markets) : hook (plain Markets) :=
  Poller.initial (Plain empty true).

Definition load_resume :=
  Poller.load_resume (fun _ data => setPayload (T:=Markets) data) (setLoading false) message.
Definition load := Poller.load (fun _ data => setPayload (T:=Markets) data) (setLoading false) message url.
Definition attempts :=
  Poller.attempts (fun _ data => setPayload (T:=Markets) data) (setLoading false) message url.
Definition run :=
  Poller.run (fun _ data => setPayload (T:=Markets) data) (setLoading false) message.
End useMarkets.
End useMarkets.

(** *** [useChartData] *)
Module useChartData.
Section useChartData.
(** One row of the chart, [{ time, buy, sell, avoid, watch }]. *)
Context {Row : Type}.

Definition url : string := "/api/chart-data".
Definition message : string := "Failed to fetch chart data:".

Definition init : hook (plain (list Row)) := Poller.initial (Plain [] true).

Definition load_resume :=
  Poller.load_resume (fun _ data => setPayload (T:=list Row) data) (setLoading false) message.
Definition load := Poller.load (fun _ data => setPayload (T:=list Row) data) (setLoading false) message url.
Definition attempts :=
  Poller.attempts (fun _ data => setPayload (T:=list Row) data) (setLoading false) message url.
End useChartData.
End useChartData.

(** *** [useSignals] *)
Module useSignals.
Section useSignals.
Context `{Countable Id}.

Record state : Type := State {
  signals : list (entry Id);
  sigLoading : bool;
  lastFetched : option Z;
  newId : option Id;
}.

(** [useSignals(plan = "FREE", ...)]: the default applies to [undefined]. *)
Definition planParam (plan : jsval) : string :=
  match plan with undefined => "FREE" | str s => s end.

(** [`/api/signals?plan=${plan}&limit=50`] *)
Definition url (plan : jsval) : string :=
  "/api/signals?plan=" +:+ planParam plan +:+ "&limit=50".

Definition message : string := "Failed to fetch signals:".

(** [new Set(prev.map(s => s.id))] *)
Definition prevIds (prev : list (entry Id)) : gset Id := list_to_set (id <$> prev).

(** [data.find(s => !prevIds.has(s.id))] *)
Definition newest (prev data : list (entry Id)) : option (entry Id) :=
  List.find (fun s => negb (bool_decide (id s ∈ prevIds prev))) data.

(** The [try] block after the [await]:
    [setSignals(prev => { ...; if (newest) setNewId(newest.id); return data; });
     setLastFetched(new Date());] *)
Definition resolve (now : Z) (data : list (entry Id)) (s : state) : state :=
  State data (sigLoading s) (Some now)
        (match newest (signals s) data with
         | Some n => Some (id n)
         | None => newId s
         end).

(** The [finally] block: [setLoading(false)]. *)
Definition finish (s : state) : state :=
  State (signals s) false (lastFetched s) (newId s).

Definition init : hook state := Poller.initial (State [] true None None).

Definition load_resume := Poller.load_resume resolve finish message.
Definition load (plan : jsval) := Poller.load resolve finish message (url plan).
Definition attempts (plan : jsval) := Poller.attempts resolve finish message (url plan).
Definition run := Poller.run resolve finish message.

(** The id, if any, that a refresh with payload [data] hands to
    [setNewId] when the held sequence is [prev]. *)
Definition flagged (prev data : list (entry Id)) : option Id :=
  id <$> newest prev data.

End useSignals.
Arguments state Id : clear implicits.
End useSignals.

(** *** [useWatchlist] *)
Module useWatchlist.

Record item : Type := Item {
  ticker : string;
  name : string;
}.

Definition url : string := "/api/watchlist".
Definition message : string := "Failed to fetch watchlist:".

Definition init : hook (plain (list item)) := Poller.initial (Plain [] true).

Definition resolve (_ : Z) (data : list item) := setPayload data.
Definition finish : plain (list item) -> plain (list item) := setLoading false.

Definition load_resume := Poller.load_resume resolve finish message.
Definition load := Poller.load resolve finish message url.
Definition attempts := Poller.attempts resolve finish message url.

(** The effect of this hook, [useEffect(() => { load(); }, [load])]: one
    call of [load], no interval and no clean-up. *)
Definition effect := Poller.load_begin (S:=plain (list item)) url.

(** [addTicker]: the POST, then [load()]; a throw of the POST is logged.
    [load] handles its own failure, so nothing of it reaches the [catch]
    here.  [post] is the outcome of the POST and [reload] the one of the
    GET (used only when the GET is issued); the payload of the POST is
    not read, so its type is [unit]. *)
Definition addTicker (ticker name : string) (post : fetched unit)
    (now : Z) (reload : fetched (list item)) (h : hook (plain (list item)))
    : hook (plain (list item)) :=
  let h1 := Poller.issue (POST url [("ticker", ticker); ("name", name)]) h in
  match fetchJSON post with
  | Ok _ => load now reload h1
  | Thrown e => Poller.console_error ("Failed to add ticker:" +:+ " " +:+ e) h1
  end.

(** [removeTicker]: the DELETE on [`/api/watchlist/${ticker}`], then
    [load()]. *)
Definition removeTicker (ticker : string) (del : fetched unit)
    (now : Z) (reload : fetched (list item)) (h : hook (plain (list item)))
    : hook (plain (list item)) :=
  let h1 := Poller.issue (DELETE (url +:+ "/" +:+ ticker)) h in
  match fetchJSON del with
  | Ok _ => load now reload h1
  | Thrown e => Poller.console_error ("Failed to remove ticker:" +:+ " " +:+ e) h1
  end.

(** The operations of the store, with the outcomes of their requests. *)
Inductive op : Type :=
| Load (now : Z) (f : fetched (list item))
| Add (ticker name : string) (post : fetched unit) (now : Z) (reload : fetched (list item))
| Remove (ticker : string) (del : fetched unit) (now : Z) (reload : fetched (list item)).

Definition apply (h : hook (plain (list item))) (o : op) : hook (plain (list item)) :=
  match o with
  | Load now f => load now f h
  | Add t n post now reload => addTicker t n post now reload h
  | Remove t del now reload => removeTicker t del now reload h
  end.

Definition run (h : hook (plain (list item))) (ops : list op) := foldl apply h ops.

(** The payload of the GET of an operation when that GET was issued and
    succeeded. *)
Definition loaded (o : op) : option (list item) :=
  let get (f : fetched (list item)) :=
    match fetchJSON f with Ok data => Some data | Thrown _ => None end in
  match o with
  | Load _ f => get f
  | Add _ _ post _ reload | Remove _ post _ reload =>
      match fetchJSON post with Ok _ => get reload | Thrown _ => None end
  end.

(** The payload of the last successful GET of a run, [start] when there
    is none. *)
Definition last_loaded (start : list item) (ops : list op) : list item :=
  foldl (fun held o => default held (loaded o)) start ops.

(** Whether the mutation request of an operation went through. *)
Definition mutated (post : fetched unit) : bool :=
  match fetchJSON post with Ok _ => true | Thrown _ => false end.

End useWatchlist.

(** ** The [FinSight] page component *)
Module FinSight.

(** [betaStep]: ["pick" | "form" | "verify" | "done"], the steps SELECT,
    DETAILS, VERIFY and DONE of the enrollment flow. *)
Inductive step : Type := Pick | Form | Verify | Done.

Global Instance step_eq_dec : EqDecision step.
Proof. solve_decision. Defined.

(** The [useState] cells of the component that the handlers touch, and
    [sent], the requests the handlers issue with [fetch]. *)
Record page : Type := Page {
  plan : jsval;
  showUpgrade : bool;
  tickerInput : string;
  betaStep : step;
  betaChoice : string;
  betaName : string;
  betaEmail : string;
  betaOtp : string;
  betaSubmitting : bool;
  betaError : string;
  sent : list request;
}.

Definition init : page :=
  Page (str "FREE") false "" Pick "PRO" "" "" "" false "" [].

Definition setPlan v p := Page v (showUpgrade p) (tickerInput p) (betaStep p)
  (betaChoice p) (betaName p) (betaEmail p) (betaOtp p) (betaSubmitting p)
  (betaError p) (sent p).
Definition setShowUpgrade v p := Page (plan p) v (tickerInput p) (betaStep p)
  (betaChoice p) (betaName p) (betaEmail p) (betaOtp p) (betaSubmitting p)
  (betaError p) (sent p).
Definition setTickerInput v p := Page (plan p) (showUpgrade p) v (betaStep p)
  (betaChoice p) (betaName p) (betaEmail p) (betaOtp p) (betaSubmitting p)
  (betaError p) (sent p).
Definition setBetaStep v p := Page (plan p) (showUpgrade p) (tickerInput p) v
  (betaChoice p) (betaName p) (betaEmail p) (betaOtp p) (betaSubmitting p)
  (betaError p) (sent p).
Definition setBetaChoice v p := Page (plan p) (showUpgrade p) (tickerInput p)
  (betaStep p) v (betaName p) (betaEmail p) (betaOtp p) (betaSubmitting p)
  (betaError p) (sent p).
Definition setBetaName v p := Page (plan p) (showUpgrade p) (tickerInput p)
  (betaStep p) (betaChoice p) v (betaEmail p) (betaOtp p) (betaSubmitting p)
  (betaError p) (sent p).
Definition setBetaEmail v p := Page (plan p) (showUpgrade p) (tickerInput p)
  (betaStep p) (betaChoice p) (betaName p) v (betaOtp p) (betaSubmitting p)
  (betaError p) (sent p).
Definition setBetaOtp v p := Page (plan p) (showUpgrade p) (tickerInput p)
  (betaStep p) (betaChoice p) (betaName p) (betaEmail p) v (betaSubmitting p)
  (betaError p) (sent p).
Definition setBetaSubmitting v p := Page (plan p) (showUpgrade p) (tickerInput p)
  (betaStep p) (betaChoice p) (betaName p) (betaEmail p) (betaOtp p) v
  (betaError p) (sent p).
Definition setBetaError v p := Page (plan p) (showUpgrade p) (tickerInput p)
  (betaStep p) (betaChoice p) (betaName p) (betaEmail p) (betaOtp p)
  (betaSubmitting p) v (sent p).
Definition fetch (r : request) p := Page (plan p) (showUpgrade p) (tickerInput p)
  (betaStep p) (betaChoice p) (betaName p) (betaEmail p) (betaOtp p)
  (betaSubmitting p) (betaError p) (sent p ++ [r]).

(** The object read from a response body by the enrollment handlers: its
    fields [detail] and [plan].  A body that [res.json()] rejects, or that
    is not an object, is [json = None] in the response. *)
Record reply : Type := Reply {
  detail : jsval;
  reply_plan : jsval;
}.

Definition generic_error : string := "Something went wrong. Please try again.".

(** [handleAddTicker], on the page and the watchlist hook.  [toUpperCase]
    is the method [String.prototype.toUpperCase] of the runtime. *)
Definition handleAddTicker (toUpperCase : string → string)
    (post : fetched unit) (now : Z)
    (reload : fetched (list useWatchlist.item))
    (ph : page * hook (plain (list useWatchlist.item)))
    : page * hook (plain (list useWatchlist.item)) :=
  let t := toUpperCase (JsString.trim (tickerInput ph.1)) in
  if negb (JsString.truthy t) then ph
  else (setTickerInput "" ph.1, useWatchlist.addTicker t t post now reload ph.2).

(** [handleBetaSubmit]; [f] is the outcome of its [fetch]. *)
Definition handleBetaSubmit (f : fetched reply) (p : page) : page :=
  if negb (JsString.truthy (JsString.trim (betaName p)))
     || negb (JsString.truthy (JsString.trim (betaEmail p)))
  then setBetaError "Please enter your name and email." p
  else
    let p1 := setBetaSubmitting true (setBetaError "" p) in
    let p2 := fetch (POST "/api/beta-signup"
                       [("name", JsString.trim (betaName p));
                        ("email", JsString.trim (betaEmail p));
                        ("plan", betaChoice p)]) p1 in
    let p3 :=
      match f with
      | Rejected _ => setBetaError generic_error p2
      | Resolved res =>
          if ok res then setBetaStep Verify (setBetaOtp "" p2)
          else
            match json res with
            | Some err => setBetaError (or_else (detail err) generic_error) p2
            | None => setBetaError generic_error p2
            end
      end in
    setBetaSubmitting false p3.

(** [handleBetaVerify]; [f] is the outcome of its [fetch]. *)
Definition handleBetaVerify (f : fetched reply) (p : page) : page :=
  if negb (JsString.truthy (JsString.trim (betaOtp p)))
  then setBetaError "Please enter the verification code." p
  else
    let p1 := setBetaSubmitting true (setBetaError "" p) in
    let p2 := fetch (POST "/api/beta-verify"
                       [("email", JsString.trim (betaEmail p));
                        ("code", JsString.trim (betaOtp p))]) p1 in
    let p3 :=
      match f with
      | Rejected _ => setBetaError generic_error p2
      | Resolved res =>
          if ok res then
            match json res with
            | Some data => setBetaStep Done (setPlan (reply_plan data) p2)
            | None => setBetaError generic_error p2
            end
          else
            match json res with
            | Some err =>
                setBetaError (or_else (detail err) "Invalid code. Please try again.") p2
            | None => setBetaError generic_error p2
            end
      end in
    setBetaSubmitting false p3.

(** [openUpgrade] *)
Definition openUpgrade (p : page) : page :=
  setShowUpgrade true
    (setBetaError "" (setBetaOtp "" (setBetaEmail "" (setBetaName "" (setBetaStep Pick p))))).

(** Clicking a plan in the pick step:
    [setBetaChoice(p.plan); setBetaStep("form")]. *)
Definition choosePlan (choice : string) (p : page) : page :=
  setBetaStep Form (setBetaChoice choice p).

(** The verify request was answered with a 2xx response whose body could
    be read. *)
Definition verified (f : fetched reply) : option jsval :=
  match f with
  | Resolved res => if ok res then reply_plan <$> json res else None
  | Rejected _ => None
  end.

(** The signup request was answered with a 2xx response. *)
Definition signed_up (f : fetched reply) : bool :=
  match f with Resolved res => ok res | Rejected _ => false end.

(** A name or email that is empty once trimmed. *)
Definition blank (s : string) : bool := negb (JsString.truthy (JsString.trim s)).

End FinSight.

(** ** Helpers and derived values of the page *)

(** [timeAgo].  [Date.now()] is the argument [now]; [getTime] stands for
    [new Date(isoString).getTime()], the epoch milliseconds of the date, or
    [None] for NaN when the text is no date.  Time values are integers of at
    most sixteen digits, on which [Math.floor(x / k)] is the integer
    quotient. *)
Module TimeAgo.
Section TimeAgo.
Variable getTime : string → option Z.

Definition timeAgo (now : Z) (isoString : jsval) : string :=
  match isoString with
  | undefined => "—"
  | str s =>
      if negb (JsString.truthy s) then "—"
      else
        match getTime s with
        | None => "NaNd ago"
        | Some t =>
            let diff := now - t in
            let mins := diff / 60000 in
            if mins <? 1 then "just now"
            else if mins <? 60 then pretty mins +:+ "m ago"
            else
              let hours := mins / 60 in
              if hours <? 24 then pretty hours +:+ "h ago"
              else pretty (hours / 24) +:+ "d ago"
        end
  end.

End TimeAgo.
End TimeAgo.

(** The code field of the verify step:
    [setBetaOtp(e.target.value.replace(/\D/g, "").slice(0, 6))], and the
    [disabled] attribute of the verify button. *)
Module OtpField.

Definition isDigit (c : ascii) : bool :=
  let n := nat_of_ascii c in (Nat.leb 48 n) && (Nat.leb n 57).

(** [s.replace(/\D/g, "")] *)
Fixpoint stripNonDigits (s : string) : string :=
  match s with
  | EmptyString => EmptyString
  | String c s' => if isDigit c then String c (stripNonDigits s') else stripNonDigits s'
  end.

(** [s.slice(0, n)] *)
Fixpoint slice0 (n : nat) (s : string) : string :=
  match n, s with
  | Datatypes.S n', String c s' => String c (slice0 n' s')
  | _, _ => EmptyString
  end.

Definition onChange (value : string) : string := slice0 6 (stripNonDigits value).

Fixpoint allDigits (s : string) : bool :=
  match s with
  | EmptyString => true
  | String c s' => isDigit c && allDigits s'
  end.

(** [disabled={betaSubmitting || betaOtp.length < 6}] *)
Definition verifyDisabled (p : FinSight.page) : bool :=
  FinSight.betaSubmitting p || Nat.ltb (String.length (FinSight.betaOtp p)) 6.

End OtpField.

(** [counts]: the number of entries per signal kind,
    [signals.reduce((a, s) => { a[s.signal] = (a[s.signal] || 0) + 1; return a; }, {})].
    The object is modelled by its own properties; the page reads it at
    BUY, SELL, AVOID and WATCH. *)
Module Counts.
Section Counts.
Context {Id : Type}.

Definition bump (a : gmap string nat) (s : entry Id) : gmap string nat :=
  <[signal s := (default 0 (a !! signal s) + 1)%nat]> a.

Definition counts (signals : list (entry Id)) : gmap string nat :=
  foldl bump ∅ signals.

(** [counts[f] || 0] *)
Definition shown (a : gmap string nat) (f : string) : nat := default 0%nat (a !! f).

(** [FILTER_TABS] without its first element, ALL. *)
Definition SIGNAL_TABS : list string := ["BUY"; "SELL"; "AVOID"; "WATCH"].

End Counts.
End Counts.

(** [allMarkets] of [useMarkets]: the three maps of the overview flattened
    into rows.  Each map is given as the list that [Object.entries] returns.
    The numbers are of a type [Num] with the test [x >= 0] and the two
    formatting methods as parameters. *)
Module AllMarkets.
Section AllMarkets.
Context {Num : Type}.
Variable geq0 : Num → bool.
Variable toLocaleString : Num → string.
Variable toFixed2 : Num → string.

(** A numeric field of a quote: absent, [null], or a number. *)
Inductive field : Type :=
| Missing
| Null
| Number (x : Num).

Record quote : Type := Quote {
  price : field;
  change_pct : field;
}.

Record row : Type := Row {
  name : string;
  value : string;
  change : string;
  up : bool;
}.

(** [d.price?.toLocaleString() ?? "—"] *)
Definition priceText (d : quote) : string :=
  match price d with
  | Number x => toLocaleString x
  | _ => "—"
  end.

(** [`${d.change_pct >= 0 ? "+" : ""}${d.change_pct?.toFixed(2) ?? "0"}%`]:
    [undefined >= 0] is false and [null >= 0] is true. *)
Definition changeText (d : quote) : string :=
  (match change_pct d with
   | Missing => ""
   | Null => "+"
   | Number x => if geq0 x then "+" else ""
   end)
  +:+ (match change_pct d with
       | Number x => toFixed2 x
       | _ => "0"
       end)
  +:+ "%".

(** [(d.change_pct ?? 0) >= 0] *)
Definition isUp (d : quote) : bool :=
  match change_pct d with
  | Number x => geq0 x
  | _ => true
  end.

Definition plainRow (e : string * quote) : row :=
  Row e.1 (priceText e.2) (changeText e.2) (isUp e.2).

Definition cryptoRow (e : string * quote) : row :=
  Row e.1 ("$" +:+ priceText e.2) (changeText e.2) (isUp e.2).

Definition allMarkets (indices commodities crypto : list (string * quote)) : list row :=
  (plainRow <$> indices) ++ (plainRow <$> commodities) ++ (cryptoRow <$> crypto).

Definition startsPlus (s : string) : bool :=
  match s with String "+" _ => true | _ => false end.

End AllMarkets.
End AllMarkets.

(** ** The upgrade dialog as a machine of user events

    The two request handlers are cut at their [await]: the part before it
    runs when the user acts, the part after it when the response arrives,
    and other events may come in between.  [session] adds to the page the
    number of calls of each handler that wait for their response. *)
Module Dialog.
Import FinSight.

(** [handleBetaSubmit] up to its [await]; the flag tells whether a request
    left. *)
Definition submit_begin (p : page) : page * bool :=
  if negb (JsString.truthy (JsString.trim (betaName p)))
     || negb (JsString.truthy (JsString.trim (betaEmail p)))
  then (setBetaError "Please enter your name and email." p, false)
  else
    (fetch (POST "/api/beta-signup"
              [("name", JsString.trim (betaName p));
               ("email", JsString.trim (betaEmail p));
               ("plan", betaChoice p)])
       (setBetaSubmitting true (setBetaError "" p)), true).

(** [handleBetaSubmit] from its [await] on. *)
Definition submit_settle (f : fetched reply) (p : page) : page :=
  setBetaSubmitting false
    match f with
    | Rejected _ => setBetaError generic_error p
    | Resolved res =>
        if ok res then setBetaStep Verify (setBetaOtp "" p)
        else
          match json res with
          | Some err => setBetaError (or_else (detail err) generic_error) p
          | None => setBetaError generic_error p
          end
    end.

(** [handleBetaVerify] up to its [await]. *)
Definition verify_begin (p : page) : page * bool :=
  if negb (JsString.truthy (JsString.trim (betaOtp p)))
  then (setBetaError "Please enter the verification code." p, false)
  else
    (fetch (POST "/api/beta-verify"
              [("email", JsString.trim (betaEmail p));
               ("code", JsString.trim (betaOtp p))])
       (setBetaSubmitting true (setBetaError "" p)), true).

(** [handleBetaVerify] from its [await] on. *)
Definition verify_settle (f : fetched reply) (p : page) : page :=
  setBetaSubmitting false
    match f with
    | Rejected _ => setBetaError generic_error p
    | Resolved res =>
        if ok res then
          match json res with
          | Some data => setBetaStep Done (setPlan (reply_plan data) p)
          | None => setBetaError generic_error p
          end
        else
          match json res with
          | Some err =>
              setBetaError (or_else (detail err) "Invalid code. Please try again.") p
          | None => setBetaError generic_error p
          end
    end.

Record session : Type := Session {
  view : page;
  submits : nat;
  verifies : nat;
}.

Definition start : session := Session init 0 0.

(** What the user, or the network, can do.
    - [ClickUpgrade]: the plan badge, a locked card, or one of the upgrade
      banners; all of them call [openUpgrade] and do so only while
      [plan === "FREE"];
    - [ClickClose]: the close button of the dialog or the button of the
      done step, [setShowUpgrade(false)];
    - [ClickPlan elite]: one of the two plan cards of the pick step;
    - [TypeName], [TypeEmail], [ClickSubmit], [EnterSubmit], [ClickBack]:
      the controls of the form step;
    - [TypeOtp], [ClickVerify], [EnterVerify], [ClickResend]: the controls
      of the verify step;
    - [SignupSettles], [VerifySettles]: a response arrives. *)
Inductive event : Type :=
| ClickUpgrade
| ClickClose
| ClickPlan (elite : bool)
| TypeName (value : string)
| TypeEmail (value : string)
| ClickSubmit
| EnterSubmit
| ClickBack
| TypeOtp (value : string)
| ClickVerify
| EnterVerify
| ClickResend
| SignupSettles (f : fetched reply)
| VerifySettles (f : fetched reply).

(** The dialog shows the controls of step [st]. *)
Definition shows (st : step) (p : page) : bool :=
  showUpgrade p && bool_decide (betaStep p = st).

Definition on_view (g : page → page) (s : session) : session :=
  Session (g (view s)) (submits s) (verifies s).

Definition begin_submit (s : session) : session :=
  let r := submit_begin (view s) in
  Session r.1 (if r.2 then Datatypes.S (submits s) else submits s) (verifies s).

Definition begin_verify (s : session) : session :=
  let r := verify_begin (view s) in
  Session r.1 (submits s) (if r.2 then Datatypes.S (verifies s) else verifies s).

Definition step (s : session) (e : event) : session :=
  let p := view s in
  match e with
  | ClickUpgrade => if strict_eq (plan p) "FREE" then on_view openUpgrade s else s
  | ClickClose => if showUpgrade p then on_view (setShowUpgrade false) s else s
  | ClickPlan elite =>
      if shows Pick p then on_view (choosePlan (if elite then "ELITE" else "PRO")) s else s
  | TypeName v => if shows Form p then on_view (setBetaName v) s else s
  | TypeEmail v => if shows Form p then on_view (setBetaEmail v) s else s
  | ClickSubmit => if shows Form p && negb (betaSubmitting p) then begin_submit s else s
  | EnterSubmit => if shows Form p then begin_submit s else s
  | ClickBack => if shows Form p then on_view (setBetaStep Pick) s else s
  | TypeOtp v => if shows Verify p then on_view (setBetaOtp (OtpField.onChange v)) s else s
  | ClickVerify =>
      if shows Verify p && negb (OtpField.verifyDisabled p) then begin_verify s else s
  | EnterVerify => if shows Verify p then begin_verify s else s
  | ClickResend =>
      if shows Verify p then on_view (fun p => setBetaError "" (setBetaStep Form p)) s else s
  | SignupSettles f =>
      match submits s with
      | O => s
      | Datatypes.S n => Session (submit_settle f p) n (verifies s)
      end
  | VerifySettles f =>
      match verifies s with
      | O => s
      | Datatypes.S n => Session (verify_settle f p) (submits s) n
      end
  end.

Definition run (s : session) (evs : list event) : session := foldl step s evs.

(** A signup request as the page sends it: a non-empty name and email
    without white space around them, and one of the two plans. *)
Definition signup_ok (r : request) : bool :=
  match r with
  | Request "POST" "/api/beta-signup" [("name", n); ("email", e); ("plan", c)] =>
      JsString.truthy n && bool_decide (JsString.trim n = n)
      && JsString.truthy e && bool_decide (JsString.trim e = e)
      && (bool_decide (c = "PRO") || bool_decide (c = "ELITE"))
  | _ => false
  end.

(** A verify request as the page sends it: a code of one to six digits. *)
Definition verify_ok (r : request) : bool :=
  match r with
  | Request "POST" "/api/beta-verify" [("email", e); ("code", c)] =>
      OtpField.allDigits c && JsString.truthy c && Nat.leb (String.length c) 6
  | _ => false
  end.

(** A response that makes [handleBetaVerify] activate a plan. *)
Definition activates (e : event) : bool :=
  match e with
  | VerifySettles f => bool_decide (is_Some (verified f))
  | _ => false
  end.

(** What the dialog keeps true of the page: the code held is a code, the
    choice is one of the two plans, and the requests sent so far are
    signup and verify requests of the two shapes above. *)
Definition kept (p : page) : Prop :=
  OtpField.allDigits (betaOtp p) = true ∧
  (String.length (betaOtp p) ≤ 6)%nat ∧
  (betaChoice p = "PRO" ∨ betaChoice p = "ELITE") ∧
  Forall (fun r => signup_ok r || verify_ok r = true) (sent p).

End Dialog.

(** The order in which React runs the effect and its clean-up: the effect
    only when none is in place, the clean-up only when one is.  [active]
    tells whether an effect is in place before the events. *)
Module Lifecycle.

Fixpoint alternates {T} (active : bool) (evs : list (Poller.event (T:=T))) : bool :=
  match evs with
  | [] => true
  | Poller.Effect _ :: rest => negb active && alternates true rest
  | Poller.Cleanup :: rest => active && alternates false rest
  | _ :: rest => alternates active rest
  end.

End Lifecycle.

(** ** A polling hook in the life of its component

    [hook S] is the state of a hook whose component is mounted.  Here the
    component may also be unmounted: from then on React ignores every call of
    a setter, while the code that calls them still runs.  A change of a
    dependency makes React run the clean-up and the effect one right after
    the other, with nothing in between. *)
Module Component.
Section Component.
Context {S T : Type}.
Variable resolve : Z → T → S → S.
Variable finish : S → S.
Variable message : string.

Record component : Type := Component {
  hk : hook S;
  mounted : bool;
}.

(** The component at its first render, before its effect has run. *)
Definition start (s : S) : component := Component (Poller.initial s) true.

(** [load] from its [await] on, after the unmount: the [catch] block still
    logs, the calls of the setters change nothing. *)
Definition load_resume_unmounted (f : fetched T) (h : hook S) : hook S :=
  match inflight h with
  | O => h
  | Datatypes.S n =>
      let h' := Hook (cells h) (console h) (requests h) n (timers h) (next_timer h)
                     (interval h) in
      match fetchJSON f with
      | Ok _ => h'
      | Thrown e => Poller.console_error (message +:+ " " +:+ e) h'
      end
  end.

(** - [Mount url]: the first run of the effect, with the [load] of the
      first render;
    - [Rerun url]: a dependency has changed; the clean-up of the effect in
      place, then the effect with the new [load];
    - [Unmount]: the clean-up, and the end of the component;
    - [Tick i]: the runtime fires interval [i];
    - [Settle now f]: the [fetchJSON] of a suspended [load] settles. *)
Inductive event : Type :=
| Mount (url : string)
| Rerun (url : string)
| Unmount
| Tick (i : nat)
| Settle (now : Z) (f : fetched T).

Definition step (c : component) (e : event) : component :=
  match e with
  | Mount url =>
      if mounted c && bool_decide (interval (hk c) = None)
      then Component (Poller.effect url (hk c)) true
      else c
  | Rerun url =>
      if mounted c && bool_decide (is_Some (interval (hk c)))
      then Component (Poller.effect url (Poller.cleanup (hk c))) true
      else c
  | Unmount => if mounted c then Component (Poller.cleanup (hk c)) false else c
  | Tick i => Component (Poller.tick i (hk c)) (mounted c)
  | Settle now f =>
      if mounted c
      then Component (Poller.load_resume resolve finish message now f (hk c)) true
      else Component (load_resume_unmounted f (hk c)) false
  end.

Definition run (c : component) (evs : list event) : component := foldl step c evs.

(** The settlements of a list of outcomes, one after the other. *)
Definition settle_all (l : list (Z * fetched T)) : list event :=
  (fun a => Settle a.1 a.2) <$> l.

End Component.
End Component.

(** * Properties *)

(** ** Strings *)
Module JsStringFacts.
Import JsString.

Lemma app_cons c (l s : string) : String c l +:+ s = String c (l +:+ s).
Proof. reflexivity. Qed.

Lemma app_empty (s : string) : "" +:+ s = s.
Proof. reflexivity. Qed.

Lemma app_empty_r (s : string) : s +:+ "" = s.
Proof. induction s as [|c s IH]; [done|]. by rewrite app_cons, IH. Qed.

Lemma app_assoc (a b c : string) : (a +:+ b) +:+ c = a +:+ b +:+ c.
Proof. induction a as [|x a IH]; [done|]. by rewrite !app_cons, IH. Qed.

(** Induction on the length of a text. *)
Lemma length_ind (P : string → Prop) :
  (∀ s, (∀ t, (String.length t < String.length s)%nat → P t) → P s) → ∀ s, P s.
Proof.
  intros Hstep s. remember (String.length s) as n eqn:Hn. revert s Hn.
  induction n as [n IH] using lt_wf_ind. intros s ->.
  apply Hstep. intros t Ht. by apply (IH (String.length t)).
Qed.

(** The three functions defined by skipping white space follow
    [takeWhite]. *)
Lemma trimStart_unfold s :
  trimStart s = match takeWhite s with Some rest => trimStart rest | None => s end.
Proof.
  destruct s as [|a [|b [|c s]]]; simpl; try done;
    destruct (white1 a); try done; destruct (white2 a b); try done;
    by destruct (white3 a b c).
Qed.

Lemma allWhite_unfold s :
  allWhite s =
    match s with
    | EmptyString => true
    | _ => match takeWhite s with Some rest => allWhite rest | None => false end
    end.
Proof.
  destruct s as [|a [|b [|c s]]]; simpl; try done;
    destruct (white1 a); try done; destruct (white2 a b); try done;
    by destruct (white3 a b c).
Qed.

Lemma takeWhite_shorter s rest :
  takeWhite s = Some rest → (String.length rest < String.length s)%nat.
Proof.
  destruct s as [|a [|b [|c s]]]; simpl; try done;
    destruct (white1 a); try (intros [= <-]; simpl; lia); try done;
    destruct (white2 a b); try (intros [= <-]; simpl; lia); try done;
    destruct (white3 a b c); try (intros [= <-]; simpl; lia); done.
Qed.

Lemma takeWhite_app s rest r :
  takeWhite s = Some rest → takeWhite (s +:+ r) = Some (rest +:+ r).
Proof.
  destruct s as [|a [|b [|c s]]]; try done; rewrite ?app_cons; simpl;
    destruct (white1 a); try (by intros [= <-]); try done;
    destruct (white2 a b); try (by intros [= <-]); try done;
    destruct (white3 a b c); try (by intros [= <-]); done.
Qed.

Lemma takeWhite_split s rest :
  takeWhite s = Some rest → ∃ w, s = w +:+ rest ∧ isWhite w = true.
Proof.
  unfold isWhite.
  destruct s as [|a [|b [|c s]]]; simpl; try done;
    destruct (white1 a) eqn:H1;
    try (intros [= <-]; exists (String a ""); simpl; by rewrite H1); try done;
    destruct (white2 a b) eqn:H2;
    try (intros [= <-]; exists (String a (String b "")); simpl; by rewrite H1, H2);
    try done;
    destruct (white3 a b c) eqn:H3;
    try (intros [= <-]; exists (String a (String b (String c ""))); simpl;
         by rewrite H1, H2, H3); done.
Qed.

Lemma isWhite_takeWhite w r : isWhite w = true → takeWhite (w +:+ r) = Some r.
Proof.
  unfold isWhite. destruct (takeWhite w) as [[|? ?]|] eqn:Hw; try done.
  intros _. by rewrite (takeWhite_app _ _ r Hw).
Qed.

Lemma startsWhite_app s r : startsWhite s = true → startsWhite (s +:+ r) = true.
Proof.
  unfold startsWhite. destruct (takeWhite s) as [rest|] eqn:Hs; [|done].
  intros _. by rewrite (takeWhite_app _ _ r Hs).
Qed.

Lemma trimStart_split s :
  ∃ l, s = l +:+ trimStart s ∧ allWhite l = true.
Proof.
  induction s as [s IH] using length_ind. rewrite trimStart_unfold.
  destruct (takeWhite s) as [rest|] eqn:Hs; [|by exists ""].
  destruct (IH rest (takeWhite_shorter _ _ Hs)) as (l & Hrest & Hl).
  destruct (takeWhite_split _ _ Hs) as (w & -> & Hw).
  exists (w +:+ l). split.
  - by rewrite app_assoc, <- Hrest.
  - rewrite allWhite_unfold, (isWhite_takeWhite w l Hw).
    unfold isWhite in Hw. destruct w; [done|]. by rewrite app_cons.
Qed.

Lemma trimStart_not_startsWhite s : startsWhite (trimStart s) = false.
Proof.
  induction s as [s IH] using length_ind. rewrite trimStart_unfold.
  destruct (takeWhite s) as [rest|] eqn:Hs.
  - apply IH. by apply takeWhite_shorter.
  - unfold startsWhite. by rewrite Hs.
Qed.

Lemma trimStart_id s : startsWhite s = false → trimStart s = s.
Proof.
  unfold startsWhite. rewrite trimStart_unfold. by destruct (takeWhite s).
Qed.

Lemma trimStart_white_all r : allWhite r = true → trimStart r = "".
Proof.
  induction r as [r IH] using length_ind. rewrite allWhite_unfold, trimStart_unfold.
  destruct r as [|c r]; [done|].
  destruct (takeWhite (String c r)) as [rest|] eqn:Hs; [|done].
  intros Hrest. apply IH; [|done]. by apply takeWhite_shorter.
Qed.

Lemma allWhite_app l r : allWhite l = true → allWhite r = true → allWhite (l +:+ r) = true.
Proof.
  induction l as [l IH] using length_ind. intros Hl Hr.
  destruct l as [|c l]; [done|]. rewrite allWhite_unfold in Hl.
  destruct (takeWhite (String c l)) as [rest|] eqn:Hs; [|done].
  rewrite allWhite_unfold, (takeWhite_app _ _ r Hs), app_cons.
  apply IH; [|done..]. by apply takeWhite_shorter.
Qed.

Lemma isWhite_allWhite w r : isWhite w = true → allWhite r = true → allWhite (w +:+ r) = true.
Proof.
  intros Hw Hr. rewrite allWhite_unfold, (isWhite_takeWhite w r Hw).
  unfold isWhite in Hw. destruct w; [done|]. by rewrite app_cons.
Qed.

Lemma trimEnd_split s :
  ∃ r, s = trimEnd s +:+ r ∧ allWhite r = true.
Proof.
  induction s as [|c s [r [Hs Hr]]]; [by exists ""|].
  cbn [trimEnd]. destruct (allWhite (String c s)) eqn:Hall.
  - by exists (String c s).
  - exists r. by rewrite app_cons, <- Hs.
Qed.

Lemma trimEnd_allWhite r : allWhite r = true → trimEnd r = "".
Proof. destruct r as [|c r]; [done|]. cbn [trimEnd]. by intros ->. Qed.

Lemma trimEnd_not_endsWhite s : endsWhite (trimEnd s) = false.
Proof.
  induction s as [|c s IH]; [done|].
  cbn [trimEnd]. destruct (allWhite (String c s)) eqn:Hall; [done|].
  cbn [endsWhite]. rewrite IH, orb_false_r.
  apply not_true_is_false. intros Hw.
  destruct (trimEnd_split s) as (r & Hs & Hr).
  pose proof (isWhite_allWhite _ r Hw Hr) as Hall'.
  rewrite app_cons, <- Hs in Hall'. congruence.
Qed.

Lemma endsWhite_app_r l r : endsWhite r = true → endsWhite (l +:+ r) = true.
Proof.
  intros Hr. induction l as [|c l IH]; [done|].
  rewrite app_cons. cbn [endsWhite]. by rewrite IH, orb_true_r.
Qed.

Lemma allWhite_endsWhite s : allWhite s = true → s ≠ "" → endsWhite s = true.
Proof.
  induction s as [s IH] using length_ind. intros Hall Hne.
  destruct s as [|c s]; [done|]. rewrite allWhite_unfold in Hall.
  destruct (takeWhite (String c s)) as [rest|] eqn:Hs; [|done].
  destruct (takeWhite_split _ _ Hs) as (w & Hw & Hiw).
  destruct rest as [|d rest].
  - rewrite app_empty_r in Hw. subst w. cbn [endsWhite]. by rewrite Hiw.
  - rewrite Hw. apply endsWhite_app_r. apply IH; [|done..].
    by apply takeWhite_shorter.
Qed.

Lemma trimEnd_id s : endsWhite s = false → trimEnd s = s.
Proof.
  induction s as [|c s IH]; [done|]. intros Hends.
  cbn [trimEnd]. destruct (allWhite (String c s)) eqn:Hall.
  - by rewrite (allWhite_endsWhite _ Hall) in Hends.
  - cbn [endsWhite] in Hends. apply orb_false_elim in Hends as [_ Hends].
    by rewrite IH.
Qed.

Lemma trimEnd_startsWhite s :
  startsWhite s = false → startsWhite (trimEnd s) = false.
Proof.
  intros Hs. apply not_true_is_false. intros Ht.
  destruct (trimEnd_split s) as (r & Hsplit & _).
  apply (startsWhite_app _ r) in Ht. rewrite <- Hsplit in Ht. congruence.
Qed.

(** [trim s] is the middle of [s] between two runs of white space, and
    neither starts nor ends with white space. *)
Lemma trim_split s :
  ∃ l r, s = l +:+ trim s +:+ r ∧ allWhite l = true ∧ allWhite r = true.
Proof.
  destruct (trimStart_split s) as [l [Hs Hl]].
  destruct (trimEnd_split (trimStart s)) as [r [Ht Hr]].
  exists l, r. unfold trim. by rewrite <- Ht.
Qed.

Lemma trim_edges s : startsWhite (trim s) = false ∧ endsWhite (trim s) = false.
Proof.
  split; [|apply trimEnd_not_endsWhite].
  apply trimEnd_startsWhite, trimStart_not_startsWhite.
Qed.

Lemma trim_id s : startsWhite s = false → endsWhite s = false → trim s = s.
Proof. intros H1 H2. unfold trim. rewrite trimStart_id by done. by apply trimEnd_id. Qed.

Lemma trim_idem s : trim (trim s) = trim s.
Proof. destruct (trim_edges s). by apply trim_id. Qed.

Lemma trim_empty_iff s : trim s = "" ↔ allWhite s = true.
Proof.
  split.
  - intros Ht. destruct (trim_split s) as (l & r & Hs & Hl & Hr).
    rewrite Ht, app_empty in Hs. rewrite Hs. by apply allWhite_app.
  - intros Hs. unfold trim. by rewrite trimStart_white_all.
Qed.

Lemma truthy_false_iff s : truthy s = false ↔ s = "".
Proof. by destruct s. Qed.

(** ASCII texts. *)
Lemma isAscii_app l r : isAscii (l +:+ r) = isAscii l && isAscii r.
Proof.
  induction l as [|c l IH]; [done|].
  rewrite app_cons. cbn [isAscii]. by rewrite IH, andb_assoc.
Qed.

Lemma isAscii_trim s : isAscii s = true → isAscii (trim s) = true.
Proof.
  intros Hs. destruct (trim_split s) as (l & r & Hsplit & _).
  rewrite Hsplit, !isAscii_app in Hs.
  by apply andb_prop in Hs as [_ [? _]%andb_prop].
Qed.

Lemma isLower_upperChar c : isLower (upperChar c) = false.
Proof. by destruct c as [[] [] [] [] [] [] [] []]. Qed.

Lemma upperAscii_noLower s : noLower (upperAscii s) = true.
Proof. induction s as [|c s IH]; simpl; [done|]. by rewrite isLower_upperChar, IH. Qed.

Lemma upperAscii_length s : String.length (upperAscii s) = String.length s.
Proof. induction s as [|c s IH]; simpl; [done|]. by rewrite IH. Qed.

Lemma upperAscii_empty_iff s : upperAscii s = "" ↔ s = "".
Proof. by destruct s. Qed.

End JsStringFacts.

(** ** Access gate *)
Module GateFacts.
Section GateFacts.
Context `{EqDecision Id}.
Implicit Types (signals : list (entry Id)) (s : entry Id).
Import Gate.

Lemma indexOf_bounds signals s : -1 ≤ indexOf signals s.
Proof.
  induction signals as [|x rest IH]; simpl; [lia|].
  destruct (Nat.eqb _ _); [lia|]. destruct (Z.ltb_spec (indexOf rest s) 0); lia.
Qed.

Lemma indexOf_absent signals s :
  ref s ∉ ref <$> signals → indexOf signals s = -1.
Proof.
  induction signals as [|x rest IH]; simpl; [done|].
  intros Hnot. apply not_elem_of_cons in Hnot as [Hne Hrest].
  destruct (Nat.eqb_spec (ref x) (ref s)) as [Heq|_]; [by symmetry in Heq|].
  by rewrite IH.
Qed.

(** With pairwise distinct objects, [indexOf] of the object at position
    [q] is [q]. *)
Lemma indexOf_lookup signals s (q : nat) :
  distinct_objects signals → signals !! q = Some s → indexOf signals s = Z.of_nat q.
Proof.
  unfold distinct_objects. revert q.
  induction signals as [|x rest IH]; intros q Hnd Hq; [done|].
  rewrite fmap_cons in Hnd. apply NoDup_cons in Hnd as [Hx Hnd].
  destruct q as [|q]; simpl in *.
  - injection Hq as ->. by rewrite Nat.eqb_refl.
  - destruct (Nat.eqb_spec (ref x) (ref s)) as [Heq|_].
    + exfalso. apply Hx. rewrite Heq.
      apply list_elem_of_fmap. exists s. split; [done|].
      by eapply list_elem_of_lookup_2.
    + rewrite (IH q Hnd Hq). destruct (Z.ltb_spec (Z.of_nat q) 0); lia.
Qed.

(** The entry at position [p] of a filtered view sits at a position
    [q ≥ p] of the feed. *)
Lemma filter_lookup (P : entry Id → bool) signals (p : nat) s :
  List.filter P signals !! p = Some s → ∃ q : nat, signals !! q = Some s ∧ (p ≤ q)%nat.
Proof.
  revert p. induction signals as [|x rest IH]; intros p; simpl; [done|].
  destruct (P x).
  - destruct p as [|p]; simpl.
    + intros [= ->]. by exists 0%nat.
    + intros (q & Hq & Hle)%IH. exists (Datatypes.S q). split; [done|lia].
  - intros (q & Hq & Hle)%IH. exists (Datatypes.S q). split; [done|lia].
Qed.

Lemma filtered_lookup filter signals (p : nat) s :
  filtered filter signals !! p = Some s →
  ∃ q : nat, signals !! q = Some s ∧ (p ≤ q)%nat ∧ (filter = "ALL" → q = p).
Proof.
  unfold filtered. case_bool_decide as Hall.
  - intros Hp. by exists p.
  - intros (q & Hq & Hle)%filter_lookup. by exists q.
Qed.

Lemma strict_eq_true (v : jsval) lit : strict_eq v lit = true ↔ v = str lit.
Proof. unfold strict_eq. by rewrite bool_decide_eq_true. Qed.

Lemma isLocked_iff plan signals s (q : nat) :
  distinct_objects signals → signals !! q = Some s →
  isLocked plan signals s = true ↔ plan = str "FREE" ∧ (3 ≤ q)%nat.
Proof.
  intros Hnd Hq. unfold isLocked.
  rewrite andb_true_iff, strict_eq_true, (indexOf_lookup _ _ _ Hnd Hq), Z.leb_le.
  split; intros [? ?]; split; auto; lia.
Qed.

Lemma render_lookup plan filter newId signals (p : nat) s :
  filtered filter signals !! p = Some s →
  render plan filter newId signals !! p =
    Some (if isLocked plan signals s then LockedPlaceholder (id s)
          else SignalCard (id s) (bool_decide (Some (id s) = newId))).
Proof.
  intros Hp. unfold render.
  change (List.map ?f ?l) with (f <$> l). by rewrite list_lookup_fmap, Hp.
Qed.

End GateFacts.
End GateFacts.

(** ** The polling pattern *)
Module PollerFacts.
Section PollerFacts.
Context {S T : Type}.
Variable resolve : Z → T → S → S.
Variable finish : S → S.
Variable message : string.
Implicit Types (h : hook S) (f : fetched T).

Local Abbreviation load_body := (Poller.load_body resolve finish message).
Local Abbreviation load_resume := (Poller.load_resume resolve finish message).
Local Abbreviation load := (Poller.load resolve finish message).
Local Abbreviation step := (Poller.step resolve finish message).
Local Abbreviation run := (Poller.run resolve finish message).
Local Abbreviation event := (Poller.event (T:=T)).
Local Abbreviation settle_cells := (Poller.settle_cells resolve finish).

Lemma load_body_cells now f h :
  cells (load_body now f h) = settle_cells (now, f) (cells h).
Proof. unfold Poller.load_body, Poller.settle_cells. simpl. by destruct (fetchJSON f). Qed.

Lemma load_body_others now f h :
  requests (load_body now f h) = requests h ∧
  inflight (load_body now f h) = inflight h ∧
  timers (load_body now f h) = timers h ∧
  next_timer (load_body now f h) = next_timer h ∧
  interval (load_body now f h) = interval h.
Proof. unfold Poller.load_body. by destruct (fetchJSON f). Qed.

Lemma load_body_thrown now f h e :
  fetchJSON f = Thrown e →
  load_body now f h =
    Poller.set_cells (finish (cells h)) (Poller.console_error (message +:+ " " +:+ e) h).
Proof. unfold Poller.load_body. by intros ->. Qed.

Lemma load_body_ok now f h data :
  fetchJSON f = Ok data →
  load_body now f h = Poller.set_cells (finish (resolve now data (cells h))) h.
Proof. unfold Poller.load_body. by intros ->. Qed.

(** A settlement with no attempt in flight changes nothing. *)
Lemma load_resume_idle now f h : inflight h = 0%nat → load_resume now f h = h.
Proof. unfold Poller.load_resume. by intros ->. Qed.

(** A failed attempt: the cells only go through the [finally] block, one
    line is logged. *)
Lemma load_resume_thrown now f h e :
  fetchJSON f = Thrown e → inflight h ≠ 0%nat →
  cells (load_resume now f h) = finish (cells h) ∧
  console (load_resume now f h) = console h ++ [message +:+ " " +:+ e].
Proof.
  intros Hf Hn. unfold Poller.load_resume.
  destruct (inflight h); [done|]. by rewrite (load_body_thrown _ _ _ _ Hf).
Qed.

Lemma load_thrown url now f h e :
  fetchJSON f = Thrown e →
  load url now f h =
    Hook (finish (cells h)) (console h ++ [message +:+ " " +:+ e])
         (requests h ++ [GET url]) (inflight h) (timers h) (next_timer h) (interval h).
Proof.
  intros Hf. unfold Poller.load, Poller.load_resume, Poller.load_begin. simpl.
  by rewrite (load_body_thrown _ _ _ _ Hf).
Qed.

Lemma load_ok url now f h data :
  fetchJSON f = Ok data →
  load url now f h =
    Hook (finish (resolve now data (cells h))) (console h)
         (requests h ++ [GET url]) (inflight h) (timers h) (next_timer h) (interval h).
Proof.
  intros Hf. unfold Poller.load, Poller.load_resume, Poller.load_begin. simpl.
  by rewrite (load_body_ok _ _ _ _ Hf).
Qed.

Lemma load_cells url now f h : cells (load url now f h) = settle_cells (now, f) (cells h).
Proof.
  unfold Poller.load, Poller.load_resume, Poller.load_begin. simpl.
  by rewrite load_body_cells.
Qed.

Lemma attempts_cells url h (l : list (Z * fetched T)) :
  cells (Poller.attempts resolve finish message url h l) =
  foldl (fun s a => settle_cells a s) (cells h) l.
Proof.
  unfold Poller.attempts. revert h.
  induction l as [|a l IH]; intros h; simpl; [done|].
  by rewrite IH, load_cells, <- surjective_pairing.
Qed.

(** *** The effect and its clean-up *)

Lemma tidy_initial (s : S) : Poller.tidy (Poller.initial s).
Proof. done. Qed.

(** React runs the effect only when none is in place (at mount, or after
    the clean-up); under that discipline [tidy] is kept by every event. *)
Lemma tidy_step h (e : event) :
  Poller.tidy h →
  (Poller.no_effect e = false → interval h = None) →
  Poller.tidy (step h e).
Proof.
  unfold Poller.tidy. intros Ht He. destruct e as [url| |i|now f]; simpl.
  - rewrite (He eq_refl) in Ht. unfold Poller.effect, Poller.setInterval. simpl.
    rewrite Ht. split; [lia|]. by rewrite insert_empty, dom_singleton_L.
  - unfold Poller.cleanup. destruct (interval h) as [i|] eqn:Hi; simpl; [|by rewrite Hi].
    destruct Ht as [_ Hdom]. apply dom_empty_inv_L.
    by rewrite dom_delete_L, Hdom, difference_diag_L.
  - unfold Poller.tick. by destruct (timers h !! i).
  - unfold Poller.load_resume. destruct (inflight h); [done|].
    destruct (load_body_others now f
      (Hook (cells h) (console h) (requests h) n (timers h) (next_timer h) (interval h)))
      as (_ & _ & -> & -> & ->). done.
Qed.

Lemma cleanup_stops_timers h :
  Poller.tidy h → timers (Poller.cleanup h) = ∅ ∧ interval (Poller.cleanup h) = None.
Proof.
  intros Ht. pose proof (tidy_step h Poller.Cleanup Ht) as Hc.
  unfold Poller.tidy in Hc. simpl in Hc.
  assert (interval (Poller.cleanup h) = None) as Hi.
  { unfold Poller.cleanup. by destruct (interval h) eqn:E. }
  rewrite Hi in Hc. split; [|done]. by apply Hc.
Qed.

Lemma cleanup_keeps h :
  cells (Poller.cleanup h) = cells h ∧ requests (Poller.cleanup h) = requests h ∧
  inflight (Poller.cleanup h) = inflight h ∧ console (Poller.cleanup h) = console h.
Proof. unfold Poller.cleanup. by destruct (interval h). Qed.

End PollerFacts.
End PollerFacts.

(** ** New-item detection in [useSignals] *)
Module SignalsFacts.
Section SignalsFacts.
Context `{Countable Id}.
Implicit Types (prev data : list (entry Id)) (s : entry Id).
Import useSignals.

Lemma elem_of_prevIds prev (i : Id) : i ∈ prevIds prev ↔ ∃ s, s ∈ prev ∧ id s = i.
Proof.
  unfold prevIds. rewrite elem_of_list_to_set, list_elem_of_fmap.
  split; intros (s & ? & ?); by exists s.
Qed.

(** [newest] returns the first entry of [data], in the order of [data],
    whose id is held by no entry of [prev]. *)
Lemma newest_Some prev data s :
  newest prev data = Some s ↔
  ∃ before after, data = before ++ s :: after ∧
    (∀ x, x ∈ before → id x ∈ prevIds prev) ∧ id s ∉ prevIds prev.
Proof.
  unfold newest. induction data as [|x data IH]; simpl.
  - split; [done|]. intros (before & after & Hd & _). by destruct before.
  - case_bool_decide as Hx; simpl.
    + rewrite IH. split.
      * intros (before & after & -> & Hb & Hs).
        exists (x :: before), after. split; [done|]. split; [|done].
        intros y [->|Hy]%elem_of_cons; auto.
      * intros (before & after & Hd & Hb & Hs).
        destruct before as [|y before]; simplify_eq/=; [done|].
        exists before, after. split; [done|]. split; [|done].
        intros z Hz. apply Hb. by right.
    + split.
      * intros [= ->]. exists [], data. split; [done|]. split; [|done].
        by intros y Hy%elem_of_nil.
      * intros (before & after & Hd & Hb & Hs).
        destruct before as [|y before]; simplify_eq/=; [done|].
        exfalso. apply Hx, Hb. by left.
Qed.

Lemma newest_None prev data :
  newest prev data = None ↔ ∀ x, x ∈ data → id x ∈ prevIds prev.
Proof.
  unfold newest. induction data as [|x data IH]; simpl.
  - split; [|done]. by intros _ y Hy%elem_of_nil.
  - case_bool_decide as Hx; simpl.
    + rewrite IH. split.
      * intros Hd y [->|Hy]%elem_of_cons; auto.
      * intros Hd y Hy. apply Hd. by right.
    + split; [done|]. intros Hd. exfalso. apply Hx, Hd. by left.
Qed.

Lemma newest_empty_prev s data : newest [] (s :: data) = Some s.
Proof.
  unfold newest. simpl. rewrite bool_decide_eq_false_2; [done|].
  unfold prevIds. simpl. set_solver.
Qed.

Lemma resolve_signals now data (st : state Id) : signals (resolve now data st) = data.
Proof. done. Qed.

Lemma resolve_newId now data (st : state Id) :
  newId (resolve now data st) =
    match flagged (signals st) data with Some i => Some i | None => newId st end.
Proof. unfold resolve, flagged. simpl. by destruct (newest _ _). Qed.

End SignalsFacts.
End SignalsFacts.

(** ** The watchlist store *)
Module WatchlistFacts.
Import useWatchlist.
Implicit Types (h : hook (plain (list item))).

Lemma load_payload now f h :
  payload (cells (load now f h)) =
    match fetchJSON f with Ok data => data | Thrown _ => payload (cells h) end.
Proof.
  unfold load. rewrite PollerFacts.load_cells. unfold Poller.settle_cells. simpl.
  by destruct (fetchJSON f).
Qed.

Lemma load_requests now f h : requests (load now f h) = requests h ++ [GET url].
Proof.
  unfold load. destruct (fetchJSON f) as [data|e] eqn:Hf.
  - by rewrite (PollerFacts.load_ok _ _ _ _ _ _ _ _ Hf).
  - by rewrite (PollerFacts.load_thrown _ _ _ _ _ _ _ _ Hf).
Qed.

Lemma load_console now f h :
  console (load now f h) =
    match fetchJSON f with
    | Ok _ => console h
    | Thrown e => console h ++ [message +:+ " " +:+ e]
    end.
Proof.
  unfold load. destruct (fetchJSON f) as [data|e] eqn:Hf.
  - by rewrite (PollerFacts.load_ok _ _ _ _ _ _ _ _ Hf).
  - by rewrite (PollerFacts.load_thrown _ _ _ _ _ _ _ _ Hf).
Qed.

Lemma apply_payload h o :
  payload (cells (apply h o)) = default (payload (cells h)) (loaded o).
Proof.
  destruct o as [now f|t n post now reload|t del now reload]; simpl.
  - rewrite load_payload. by destruct (fetchJSON f).
  - unfold addTicker. destruct (fetchJSON post); [|done].
    rewrite load_payload. by destruct (fetchJSON reload).
  - unfold removeTicker. destruct (fetchJSON del); [|done].
    rewrite load_payload. by destruct (fetchJSON reload).
Qed.

(** The held list is at every moment the payload of the last successful
    GET. *)
Lemma run_payload h ops :
  payload (cells (run h ops)) = last_loaded (payload (cells h)) ops.
Proof.
  unfold run, last_loaded. revert h.
  induction ops as [|o ops IH]; intros h; simpl; [done|].
  by rewrite IH, apply_payload.
Qed.

End WatchlistFacts.

(** ** Sequences of attempts *)
Module AttemptFacts.

(** A hook with a single payload holds, after any sequence of attempts,
    the payload of the last successful one. *)
Lemma plain_attempts {T} (start : plain T) (l : list (Z * fetched T)) :
  payload (foldl (fun s a =>
                    Poller.settle_cells (fun _ data => setPayload data) (setLoading false) a s)
                 start l)
  = last_success (payload start) l.
Proof.
  unfold last_success. revert start.
  induction l as [|a l IH]; intros start; simpl; [done|].
  rewrite IH. unfold Poller.settle_cells. by destruct (fetchJSON a.2).
Qed.

Lemma signals_attempts `{Countable Id} (start : useSignals.state Id)
    (l : list (Z * fetched (list (entry Id)))) :
  useSignals.signals
    (foldl (fun s a => Poller.settle_cells useSignals.resolve useSignals.finish a s) start l)
  = last_success (useSignals.signals start) l.
Proof.
  unfold last_success. revert start.
  induction l as [|a l IH]; intros start; simpl; [done|].
  rewrite IH. unfold Poller.settle_cells. by destruct (fetchJSON a.2).
Qed.

End AttemptFacts.

(** * The properties of the specification *)

(** C1 (as amended).  An entry shown in the signals view is rendered as
    the locked placeholder if and only if the plan is FREE and the entry's
    zero-based position [q] in the whole feed, not in the filtered view, is at
    least 3.  The position [p] in the filtered view is at most [q], and equal
    to [q] under the filter ALL: so on the FREE plan every filtered position
    3 and beyond is locked, and on any other plan nothing is. *)
Theorem gate_locks_by_feed_position `{EqDecision Id}
    (plan : jsval) (filter : string) (newId : option Id)
    (signals : list (entry Id)) (p : nat) (s : entry Id) :
  distinct_objects signals →
  Gate.filtered filter signals !! p = Some s →
  ∃ q : nat,
    signals !! q = Some s ∧ (p ≤ q)%nat ∧ (filter = "ALL" → q = p) ∧
    (Gate.isLocked plan signals s = true ↔ plan = str "FREE" ∧ (3 ≤ q)%nat) ∧
    (plan = str "FREE" → (3 ≤ p)%nat → Gate.isLocked plan signals s = true) ∧
    (plan ≠ str "FREE" → Gate.isLocked plan signals s = false) ∧
    Gate.render plan filter newId signals !! p =
      Some (if Gate.isLocked plan signals s then Gate.LockedPlaceholder (id s)
            else Gate.SignalCard (id s) (bool_decide (Some (id s) = newId))).
Proof.
  intros Hnd Hp.
  destruct (GateFacts.filtered_lookup _ _ _ _ Hp) as (q & Hq & Hle & Hall).
  pose proof (GateFacts.isLocked_iff plan _ _ _ Hnd Hq) as Hiff.
  exists q. repeat split; try done.
  - by apply Hiff.
  - by apply Hiff.
  - apply Hiff.
  - intros Hplan Hge. apply Hiff. split; [done|lia].
  - intros Hplan. apply not_true_is_false. intros Hl.
    by apply Hiff in Hl as [? _].
  - by apply GateFacts.render_lookup.
Qed.

(** C1, witness: a FREE feed of three SELL entries and one BUY entry, seen
    through the filter BUY. *)
Lemma gate_locks_by_feed_position_witness :
  ∃ q : nat,
    [Entry 0 1 "SELL"; Entry 1 2 "SELL"; Entry 2 3 "SELL"; Entry 3 4 "BUY"] !! q
      = Some (Entry 3 4 "BUY") ∧ (0 ≤ q)%nat.
Proof.
  destruct (gate_locks_by_feed_position (Id:=Z) (str "FREE") "BUY" None
              [Entry 0 1 "SELL"; Entry 1 2 "SELL"; Entry 2 3 "SELL"; Entry 3 4 "BUY"]
              0 (Entry 3 4 "BUY")) as (q & Hq & Hle & _).
  - unfold distinct_objects. simpl. apply (bool_decide_unpack _). vm_compute. exact I.
  - reflexivity.
  - exists q. split; [exact Hq|exact Hle].
Defined.

(** C1, counterexample: in that view the BUY entry is at filtered position
    0 and is locked, so being locked is not the same as FREE with filtered
    position at least 3. *)
Lemma gate_filtered_position_refuted :
  ¬ (∀ (plan : jsval) (filter : string) (signals : list (entry Z)) (p : nat) (s : entry Z),
       distinct_objects signals →
       Gate.filtered filter signals !! p = Some s →
       (Gate.isLocked plan signals s = true ↔ plan = str "FREE" ∧ (3 ≤ p)%nat)).
Proof.
  intros Hclaim.
  specialize (Hclaim (str "FREE") "BUY"
    [Entry 0 1 "SELL"; Entry 1 2 "SELL"; Entry 2 3 "SELL"; Entry 3 4 "BUY"]
    0%nat (Entry 3 4 "BUY")).
  destruct Hclaim as [Hlocked _].
  - unfold distinct_objects. simpl. apply (bool_decide_unpack _). vm_compute. exact I.
  - reflexivity.
  - destruct (Hlocked eq_refl) as [_ Hge]. lia.
Qed.

(** C6 (as amended).  [openUpgrade] puts the flow back at the pick step and
    empties the name, the email, the code and the error, and shows the
    dialog; the chosen plan, the submitting flag and the active plan keep
    their values. *)
Theorem openUpgrade_resets (p : FinSight.page) :
  let p' := FinSight.openUpgrade p in
  FinSight.betaStep p' = FinSight.Pick ∧
  FinSight.betaName p' = "" ∧
  FinSight.betaEmail p' = "" ∧
  FinSight.betaOtp p' = "" ∧
  FinSight.betaError p' = "" ∧
  FinSight.showUpgrade p' = true ∧
  FinSight.betaChoice p' = FinSight.betaChoice p ∧
  FinSight.betaSubmitting p' = FinSight.betaSubmitting p ∧
  FinSight.plan p' = FinSight.plan p ∧
  FinSight.sent p' = FinSight.sent p.
Proof. by repeat split. Qed.

(** C6, counterexample: after choosing ELITE and reopening the flow the
    chosen plan is still ELITE; it is neither empty nor the PRO of a fresh
    session. *)
Lemma openUpgrade_keeps_choice :
  ¬ (∀ p : FinSight.page,
       let p' := FinSight.openUpgrade p in
       FinSight.betaStep p' = FinSight.Pick ∧
       (FinSight.betaChoice p' = "" ∨ FinSight.betaChoice p' = FinSight.betaChoice FinSight.init) ∧
       FinSight.betaName p' = "" ∧
       FinSight.betaEmail p' = "" ∧
       FinSight.betaOtp p' = "" ∧
       FinSight.betaError p' = "").
Proof.
  intros Hclaim.
  destruct (Hclaim (FinSight.choosePlan "ELITE" (FinSight.openUpgrade FinSight.init)))
    as (_ & [Hc|Hc] & _); discriminate Hc.
Qed.

(** C2.  After a successful refresh the hook holds the fetched sequence,
    and the id it flags is the first id of that sequence, in its order, that
    no entry of the previously held sequence has: [newId] becomes that id.
    When every fetched id was already held the refresh flags nothing:
    [setNewId] is not called and [newId] keeps the value it had.  Previous
    ids 1, 2, 3 and the new sequence 4, 2, 3, 1 flag 4; previous ids 1, 2, 3
    and the new sequence 1, 2, 3 flag nothing. *)
Theorem refresh_flags_first_absent_id :
  (∀ `{Countable Id} (plan : jsval) (h : hook (useSignals.state Id)) (now : Z)
     (f : fetched (list (entry Id))) (data : list (entry Id)),
     fetchJSON f = Ok data →
     let prev := useSignals.signals (cells h) in
     let h' := useSignals.load plan now f h in
     useSignals.signals (cells h') = data ∧
     (∀ i : Id,
        useSignals.flagged prev data = Some i ↔
        ∃ before s after, data = before ++ s :: after ∧ id s = i ∧
          (∀ x, x ∈ before → id x ∈ id <$> prev) ∧ i ∉ id <$> prev) ∧
     (useSignals.flagged prev data = None ↔ ∀ x, x ∈ data → id x ∈ id <$> prev) ∧
     useSignals.newId (cells h') =
       match useSignals.flagged prev data with
       | Some i => Some i
       | None => useSignals.newId (cells h)
       end) ∧
  useSignals.flagged
    [Entry 0 1 "BUY"; Entry 1 2 "SELL"; Entry 2 3 "WATCH"]
    [Entry 3 4 "BUY"; Entry 4 2 "SELL"; Entry 5 3 "WATCH"; Entry 6 1 "BUY"] = Some 4 ∧
  useSignals.flagged
    [Entry 0 1 "BUY"; Entry 1 2 "SELL"; Entry 2 3 "WATCH"]
    [Entry 3 1 "BUY"; Entry 4 2 "SELL"; Entry 5 3 "WATCH"] = (None : option Z).
Proof.
  split; [|split; by vm_compute].
  intros Id ? ? plan h now f data Hf prev h'.
  assert (∀ i : Id, i ∈ useSignals.prevIds prev ↔ i ∈ id <$> prev) as Hids.
  { intros i. unfold useSignals.prevIds. by rewrite elem_of_list_to_set. }
  subst h'. unfold useSignals.load. rewrite (PollerFacts.load_ok _ _ _ _ _ _ _ _ Hf).
  simpl. fold prev. repeat split.
  - unfold useSignals.flagged. intros Hfl.
    destruct (useSignals.newest prev data) as [s|] eqn:Hn; simplify_eq/=.
    apply SignalsFacts.newest_Some in Hn as (before & after & Hd & Hb & Hs).
    exists before, s, after. repeat split; try done.
    + intros x Hx. by apply Hids, Hb.
    + by rewrite <- Hids.
  - intros (before & s & after & Hd & Hi & Hb & Hs). unfold useSignals.flagged.
    assert (useSignals.newest prev data = Some s) as ->; [|by rewrite <- Hi].
    apply SignalsFacts.newest_Some. exists before, after. repeat split; try done.
    + intros x Hx. by apply Hids, Hb.
    + rewrite Hids. by rewrite Hi.
  - unfold useSignals.flagged. intros Hfl x Hx. apply Hids.
    destruct (useSignals.newest prev data) eqn:Hn; [done|].
    by apply (proj1 (SignalsFacts.newest_None prev data) Hn).
  - intros Hall. unfold useSignals.flagged.
    assert (useSignals.newest prev data = None) as ->; [|done].
    apply SignalsFacts.newest_None. intros x Hx. by apply Hids, Hall.
  - unfold useSignals.flagged. by destruct (useSignals.newest prev data).
Qed.

(** C2, witness: the two refreshes of the statement, run from the hook's
    initial state. *)
Lemma refresh_flags_first_absent_id_witness :
  let held := [Entry 0 1 "BUY"; Entry 1 2 "SELL"; Entry 2 3 "WATCH"] in
  let fresh := [Entry 3 4 "BUY"; Entry 4 2 "SELL"; Entry 5 3 "WATCH"; Entry 6 1 "BUY"] in
  let h1 := useSignals.load (str "FREE") 10 (Resolved (Response true 200 (Some held)))
              useSignals.init in
  let h2 := useSignals.load (str "FREE") 20 (Resolved (Response true 200 (Some fresh))) h1 in
  useSignals.signals (cells h2) = fresh ∧ useSignals.newId (cells h2) = Some 4.
Proof.
  intros held fresh h1 h2.
  destruct (proj1 refresh_flags_first_absent_id Z _ _ (str "FREE") h1 20
              (Resolved (Response true 200 (Some fresh))) fresh eq_refl)
    as (Hs & _ & _ & Hn).
  split; [exact Hs|]. unfold h2. rewrite Hn. reflexivity.
Defined.

(** C10.  When the held sequence is empty, as it is at the first fetch
    after mount, a successful fetch of a non-empty sequence flags the id of
    its first entry, and the signals view shows that entry as new. *)
Theorem first_fetch_flags_first_entry `{Countable Id}
    (plan : jsval) (h : hook (useSignals.state Id)) (now : Z)
    (f : fetched (list (entry Id))) (s : entry Id) (rest : list (entry Id)) :
  useSignals.signals (cells h) = [] →
  fetchJSON f = Ok (s :: rest) →
  let h' := useSignals.load plan now f h in
  useSignals.signals (cells h') = s :: rest ∧
  useSignals.flagged (useSignals.signals (cells h)) (s :: rest) = Some (id s) ∧
  useSignals.newId (cells h') = Some (id s) ∧
  Gate.render plan "ALL" (useSignals.newId (cells h')) (useSignals.signals (cells h')) !! 0%nat
    = Some (Gate.SignalCard (id s) true).
Proof.
  intros Hprev Hf h'. subst h'. unfold useSignals.load.
  rewrite (PollerFacts.load_ok _ _ _ _ _ _ _ _ Hf). simpl. rewrite Hprev.
  unfold useSignals.flagged. rewrite SignalsFacts.newest_empty_prev. simpl.
  repeat split.
  unfold Gate.render, Gate.filtered, Gate.isLocked. simpl.
  rewrite Nat.eqb_refl. rewrite andb_false_r. by rewrite bool_decide_eq_true_2.
Qed.

(** C10, witness: the first fetch of a page, returning two entries. *)
Lemma first_fetch_flags_first_entry_witness :
  useSignals.newId
    (cells (useSignals.load (str "FREE") 5
              (Resolved (Response true 200 (Some [Entry 0 7 "BUY"; Entry 1 8 "SELL"])))
              useSignals.init))
  = Some 7.
Proof.
  exact (proj1 (proj2 (proj2
    (first_fetch_flags_first_entry (Id:=Z) (str "FREE") useSignals.init 5
       (Resolved (Response true 200 (Some [Entry 0 7 "BUY"; Entry 1 8 "SELL"])))
       (Entry 0 7 "BUY") [Entry 1 8 "SELL"] eq_refl eq_refl)))).
Defined.

(** Case analysis on the settlement of a failed fetch: either no attempt is
    in flight and nothing happens, or the attempt goes through the [catch]
    and [finally] blocks. *)
Ltac settle_failed :=
  match goal with
  | Hf : fetchJSON ?f = Thrown ?e |- context [Poller.load_resume ?r ?fi ?m ?now ?f ?h] =>
      let Hz := fresh "Hz" in
      let Hc := fresh "Hc" in
      let Hl := fresh "Hl" in
      destruct (decide (inflight h = 0%nat)) as [Hz|Hz];
      [ rewrite (PollerFacts.load_resume_idle r fi m now f h Hz)
      | destruct (PollerFacts.load_resume_thrown r fi m now f h e Hf Hz) as [Hc Hl];
        rewrite Hc, Hl ]
  end.

(** C3.  In every hook ([useSignals], [useMarkets], [useChartData],
    [useWatchlist]) the settlement of a failed fetch, in whatever state it
    arrives, leaves the held payload as it was (and, in [useSignals], the
    flagged id and the time of the last fetch); when it settles an attempt
    it logs one line and clears [loading].  Hence after any sequence of
    attempts the hook holds the payload of the last successful one, or its
    starting payload when none succeeded. *)
Theorem failed_attempt_keeps_held_result :
  (∀ `{Countable Id} (h : hook (useSignals.state Id)) now f e,
     fetchJSON f = Thrown e →
     let h' := useSignals.load_resume now f h in
     useSignals.signals (cells h') = useSignals.signals (cells h) ∧
     useSignals.newId (cells h') = useSignals.newId (cells h) ∧
     useSignals.lastFetched (cells h') = useSignals.lastFetched (cells h) ∧
     (inflight h ≠ 0%nat →
      console h' = console h ++ ["Failed to fetch signals: " +:+ e] ∧
      useSignals.sigLoading (cells h') = false)) ∧
  (∀ Markets (h : hook (plain Markets)) now f e,
     fetchJSON f = Thrown e →
     let h' := useMarkets.load_resume now f h in
     payload (cells h') = payload (cells h) ∧
     (inflight h ≠ 0%nat →
      console h' = console h ++ ["Failed to fetch markets: " +:+ e] ∧
      loading (cells h') = false)) ∧
  (∀ Row (h : hook (plain (list Row))) now f e,
     fetchJSON f = Thrown e →
     let h' := useChartData.load_resume now f h in
     payload (cells h') = payload (cells h) ∧
     (inflight h ≠ 0%nat →
      console h' = console h ++ ["Failed to fetch chart data: " +:+ e] ∧
      loading (cells h') = false)) ∧
  (∀ (h : hook (plain (list useWatchlist.item))) now f e,
     fetchJSON f = Thrown e →
     let h' := useWatchlist.load_resume now f h in
     payload (cells h') = payload (cells h) ∧
     (inflight h ≠ 0%nat →
      console h' = console h ++ ["Failed to fetch watchlist: " +:+ e] ∧
      loading (cells h') = false)) ∧
  (∀ `{Countable Id} plan (h : hook (useSignals.state Id)) l,
     useSignals.signals (cells (useSignals.attempts plan h l))
       = last_success (useSignals.signals (cells h)) l) ∧
  (∀ Markets (h : hook (plain Markets)) l,
     payload (cells (useMarkets.attempts h l)) = last_success (payload (cells h)) l) ∧
  (∀ Row (h : hook (plain (list Row))) l,
     payload (cells (useChartData.attempts h l)) = last_success (payload (cells h)) l) ∧
  (∀ (h : hook (plain (list useWatchlist.item))) l,
     payload (cells (useWatchlist.attempts h l)) = last_success (payload (cells h)) l).
Proof.
  repeat apply conj.
  1-4: cbv zeta; intros;
    unfold useSignals.load_resume, useMarkets.load_resume, useChartData.load_resume,
      useWatchlist.load_resume;
    settle_failed; repeat split; try done; by intros _.
  - intros Id ? ? plan h l. unfold useSignals.attempts.
    rewrite PollerFacts.attempts_cells. apply AttemptFacts.signals_attempts.
  - intros Markets h l. unfold useMarkets.attempts.
    rewrite PollerFacts.attempts_cells. apply AttemptFacts.plain_attempts.
  - intros Row h l. unfold useChartData.attempts.
    rewrite PollerFacts.attempts_cells. apply AttemptFacts.plain_attempts.
  - intros h l. unfold useWatchlist.attempts.
    rewrite PollerFacts.attempts_cells. apply AttemptFacts.plain_attempts.
Qed.

(** C3, witness: the watchlist holds one item, a reload is in flight and
    the server answers 503. *)
Lemma failed_attempt_keeps_held_result_witness :
  let h := Poller.load_begin useWatchlist.url
             (useWatchlist.load 1
                (Resolved (Response true 200 (Some [useWatchlist.Item "BHP.AX" "BHP"])))
                useWatchlist.init) in
  let h' := useWatchlist.load_resume 2 (Resolved (Response false 503 None)) h in
  payload (cells h') = [useWatchlist.Item "BHP.AX" "BHP"] ∧
  console h' = ["Failed to fetch watchlist: API error: 503"].
Proof.
  intros h h'.
  destruct (proj1 (proj2 (proj2 (proj2 failed_attempt_keeps_held_result)))
              h 2 (Resolved (Response false 503 None)) "API error: 503" eq_refl)
    as [Hp Hc].
  split; [exact Hp|]. destruct Hc as [Hc _]; [discriminate|exact Hc].
Defined.

(** ** A hook after the clean-up of its effect *)
Module ComponentFacts.
Section ComponentFacts.
Context {S T : Type}.
Variable resolve : Z → T → S → S.
Variable finish : S → S.
Variable message : string.
Implicit Types (c : Component.component (S:=S)) (h : hook S).

Local Abbreviation step := (Component.step resolve finish message).
Local Abbreviation run := (Component.run resolve finish message).

(** After the unmount nothing changes the cells, the requests or the
    intervals. *)
Lemma run_unmounted c (evs : list (Component.event (T:=T))) :
  Component.mounted c = false → timers (Component.hk c) = ∅ →
  cells (Component.hk (run c evs)) = cells (Component.hk c) ∧
  requests (Component.hk (run c evs)) = requests (Component.hk c) ∧
  timers (Component.hk (run c evs)) = ∅ ∧
  Component.mounted (run c evs) = false.
Proof.
  unfold Component.run. revert c.
  induction evs as [|e evs IH]; intros c Hm Ht; simpl; [done|].
  assert (cells (Component.hk (step c e)) = cells (Component.hk c) ∧
          requests (Component.hk (step c e)) = requests (Component.hk c) ∧
          timers (Component.hk (step c e)) = ∅ ∧
          Component.mounted (step c e) = false) as (H1 & H2 & H3 & H4).
  { destruct e as [url|url| |i|now f]; simpl; rewrite ?Hm; simpl; try done.
    - unfold Poller.tick. by rewrite Ht, lookup_empty.
    - unfold Component.load_resume_unmounted.
      destruct (inflight (Component.hk c)); [done|].
      by destruct (fetchJSON f). }
  destruct (IH (step c e) H4 H3) as (H1' & H2' & H3' & H4').
  repeat split; congruence.
Qed.

(** In a mounted component every settlement of an attempt in flight runs
    the state updates of [load]. *)
Lemma run_settle_all h (l : list (Z * fetched T)) :
  cells (Component.hk (run (Component.Component h true) (Component.settle_all l))) =
    foldl (fun s a => Poller.settle_cells resolve finish a s) (cells h)
          (take (inflight h) l).
Proof.
  unfold Component.run, Component.settle_all. revert h.
  induction l as [|a l IH]; intros h; simpl; [by rewrite take_nil|].
  unfold Poller.load_resume. destruct (inflight h) as [|n] eqn:Hn.
  - rewrite IH, Hn. by rewrite take_0.
  - set (h' := Hook _ _ _ _ _ _ _).
    destruct (PollerFacts.load_body_others resolve finish message a.1 a.2 h')
      as (_ & Hi & _).
    rewrite IH, Hi, PollerFacts.load_body_cells. simpl.
    by rewrite <- surjective_pairing.
Qed.

End ComponentFacts.
End ComponentFacts.

(** C9 (as amended).  For a mounted hook with its effect in place:
    after the unmount no scheduled attempt fires and no late result is
    applied: no request leaves and the held state stays as it was, whatever
    happens.  After the clean-up that goes with a re-run of the effect (a
    dependency has changed, as [plan] in [useSignals]), the old interval is
    cleared and only the new one is active, but the attempts in flight are
    not cancelled: together with the first fetch of the new effect, each of
    them updates the held state when it settles. *)
Theorem teardown_stops_schedule_only {S T : Type}
    (resolve : Z → T → S → S) (finish : S → S) (message : string)
    (c : Component.component (S:=S)) (i : nat) :
  Component.mounted c = true →
  Poller.tidy (Component.hk c) →
  interval (Component.hk c) = Some i →
  let h := Component.hk c in
  (∀ evs : list (Component.event (T:=T)),
     let c' := Component.run resolve finish message
                 (Component.step resolve finish message c Component.Unmount) evs in
     cells (Component.hk c') = cells h ∧
     requests (Component.hk c') = requests h ∧
     timers (Component.hk c') = ∅ ∧
     Component.mounted c' = false) ∧
  (∀ url : string,
     let c1 := Component.step resolve finish message c (Component.Rerun url) in
     Component.mounted c1 = true ∧
     timers (Component.hk c1) = {[ next_timer h := url ]} ∧
     Component.step resolve finish message c1 (Component.Tick i) = c1 ∧
     requests (Component.hk c1) = requests h ++ [GET url] ∧
     inflight (Component.hk c1) = Datatypes.S (inflight h) ∧
     ∀ l : list (Z * fetched T),
       cells (Component.hk (Component.run resolve finish message c1 (Component.settle_all l))) =
         foldl (fun s a => Poller.settle_cells resolve finish a s) (cells h)
               (take (Datatypes.S (inflight h)) l)).
Proof.
  intros Hm Ht Hi h. destruct c as [h0 m]. simpl in *. subst m h.
  destruct (PollerFacts.cleanup_stops_timers resolve finish message h0 Ht) as [Hempty Hnone].
  destruct (PollerFacts.cleanup_keeps h0) as (Hc & Hr & Hin & _).
  assert (next_timer (Poller.cleanup h0) = next_timer h0) as Hnext.
  { unfold Poller.cleanup. by rewrite Hi. }
  split.
  - intros evs. cbv zeta. simpl.
    destruct (ComponentFacts.run_unmounted resolve finish message
                (Component.Component (Poller.cleanup h0) false) evs eq_refl Hempty)
      as (H1 & H2 & H3 & H4).
    simpl in *. by rewrite H1, H2, H3, H4, Hc, Hr.
  - intros url. cbv zeta. simpl. rewrite Hi.
    rewrite (bool_decide_eq_true_2 (is_Some (Some i))) by eauto. simpl.
    rewrite Hempty, Hnext, Hr, Hin, insert_empty.
    split; [done|]. split; [done|]. split.
    { unfold Poller.tick. simpl. rewrite Hempty, Hnext, insert_empty.
      rewrite lookup_singleton_ne; [done|].
      unfold Poller.tidy in Ht. rewrite Hi in Ht. destruct Ht as [Hlt _]. lia. }
    split; [done|]. split; [done|].
    intros l. rewrite ComponentFacts.run_settle_all. simpl. by rewrite Hin, Hc.
Qed.

(** C9, witness: [useMarkets] holds 7 and a fetch started by its interval
    is in flight.  If the component is unmounted, the late payload 9 is not
    applied; if the effect is re-run instead, the late payload 9 and the
    payload 11 of the new effect's fetch are both applied. *)
Lemma teardown_stops_schedule_only_witness :
  let setter := fun (_ : Z) (data : nat) => setPayload data in
  let c := Component.run setter (setLoading false) useMarkets.message
             (Component.start (Plain 0%nat true))
             [Component.Mount useMarkets.url;
              Component.Settle 1 (Resolved (Response true 200 (Some 7%nat)));
              Component.Tick 0] in
  let late := Resolved (Response true 200 (Some 9%nat)) in
  payload (cells (Component.hk
    (Component.run setter (setLoading false) useMarkets.message
       (Component.step setter (setLoading false) useMarkets.message c Component.Unmount)
       [Component.Tick 0; Component.Settle 2 late]))) = 7%nat ∧
  payload (cells (Component.hk
    (Component.run setter (setLoading false) useMarkets.message
       (Component.step setter (setLoading false) useMarkets.message c
          (Component.Rerun useMarkets.url))
       (Component.settle_all [(2, late)])))) = 9%nat.
Proof.
  intros setter c late.
  destruct (teardown_stops_schedule_only setter (setLoading false) useMarkets.message c 0)
    as [Hunmount Hrerun].
  - reflexivity.
  - vm_compute. split; [lia|reflexivity].
  - reflexivity.
  - split.
    + destruct (Hunmount [Component.Tick 0; Component.Settle 2 late]) as (Hcells & _).
      rewrite Hcells. reflexivity.
    + destruct (Hrerun useMarkets.url) as (_ & _ & _ & _ & _ & Hsettle).
      rewrite (Hsettle [(2, late)]). reflexivity.
Defined.

(** C9, counterexample: [useSignals] has run its effect for the FREE plan
    and that fetch is in flight when the plan changes and the effect is re-run
    for PRO.  One fetch is due to the new effect; were the late result of the
    old one not applied, at most one of the two settlements that follow would
    show in the state.  Both do: the first brings an entry and flags it, the
    second empties the feed and leaves the flag. *)
Lemma late_result_after_rerun_applies :
  ¬ (∀ (c : Component.component (S:=useSignals.state Z)) (url : string)
       (a b : Z * fetched (list (entry Z))),
       Component.mounted c = true →
       Poller.tidy (Component.hk c) →
       is_Some (interval (Component.hk c)) →
       inflight (Component.hk c) = 1%nat →
       let run := Component.run useSignals.resolve useSignals.finish useSignals.message in
       let c1 := Component.step useSignals.resolve useSignals.finish useSignals.message c
                   (Component.Rerun url) in
       cells (Component.hk (run c1 (Component.settle_all [a; b]))) =
         cells (Component.hk (run c1 (Component.settle_all [a]))) ∨
       cells (Component.hk (run c1 (Component.settle_all [a; b]))) =
         cells (Component.hk (run c1 (Component.settle_all [b])))).
Proof.
  intros Hclaim.
  destruct (Hclaim
    (Component.run useSignals.resolve useSignals.finish useSignals.message
       (Component.start (useSignals.State [] true None None))
       [Component.Mount (useSignals.url (str "FREE"))])
    (useSignals.url (str "PRO"))
    (1, Resolved (Response true 200 (Some [Entry 0 7 "BUY"])))
    (2, Resolved (Response true 200 (Some [])))) as [Heq|Heq].
  - reflexivity.
  - vm_compute. split; [lia|reflexivity].
  - by eexists.
  - reflexivity.
  - discriminate Heq.
  - discriminate Heq.
Qed.

(** C8 (as amended).  A mutation request that [fetchJSON] resolves, that is
    one answered with a 2xx status and a body that is JSON, is followed by the
    GET of the whole list, and the held list afterwards is the payload of that
    GET (the list held before, if the GET fails): it is never built from the
    held list and the mutated ticker.  A mutation whose request fails, which
    includes a 2xx answer without a JSON body, issues no GET, logs one line
    and leaves the cells as they were.  Over any run of loads, adds and
    removes the held list is therefore the payload of the last successful
    GET. *)
Theorem mutation_reloads_or_keeps :
  (∀ (h : hook (plain (list useWatchlist.item))) ticker name post now reload,
     let h' := useWatchlist.addTicker ticker name post now reload h in
     let request := POST "/api/watchlist" [("ticker", ticker); ("name", name)] in
     (useWatchlist.mutated post = true →
      requests h' = requests h ++ [request; GET "/api/watchlist"] ∧
      payload (cells h') =
        match fetchJSON reload with
        | Ok data => data
        | Thrown _ => payload (cells h)
        end) ∧
     (useWatchlist.mutated post = false →
      requests h' = requests h ++ [request] ∧
      cells h' = cells h ∧
      ∃ e, fetchJSON post = Thrown e ∧
           console h' = console h ++ ["Failed to add ticker: " +:+ e])) ∧
  (∀ (h : hook (plain (list useWatchlist.item))) ticker del now reload,
     let h' := useWatchlist.removeTicker ticker del now reload h in
     let request := DELETE ("/api/watchlist/" +:+ ticker) in
     (useWatchlist.mutated del = true →
      requests h' = requests h ++ [request; GET "/api/watchlist"] ∧
      payload (cells h') =
        match fetchJSON reload with
        | Ok data => data
        | Thrown _ => payload (cells h)
        end) ∧
     (useWatchlist.mutated del = false →
      requests h' = requests h ++ [request] ∧
      cells h' = cells h ∧
      ∃ e, fetchJSON del = Thrown e ∧
           console h' = console h ++ ["Failed to remove ticker: " +:+ e])) ∧
  (∀ (h : hook (plain (list useWatchlist.item))) ops,
     payload (cells (useWatchlist.run h ops))
       = useWatchlist.last_loaded (payload (cells h)) ops) ∧
  (∀ post, useWatchlist.mutated post = true ↔
           ∃ status, post = Resolved (Response true status (Some tt))).
Proof.
  split; [|split; [|split]].
  - intros h ticker name post now reload h' request. subst h' request.
    unfold useWatchlist.addTicker, useWatchlist.mutated.
    destruct (fetchJSON post) as [[]|e]; split; try done.
    + intros _. rewrite WatchlistFacts.load_requests, WatchlistFacts.load_payload.
      simpl. by rewrite <- app_assoc.
    + intros _. repeat split. by exists e.
  - intros h ticker del now reload h' request. subst h' request.
    unfold useWatchlist.removeTicker, useWatchlist.mutated.
    destruct (fetchJSON del) as [[]|e]; split; try done.
    + intros _. rewrite WatchlistFacts.load_requests, WatchlistFacts.load_payload.
      simpl. by rewrite <- app_assoc.
    + intros _. repeat split. by exists e.
  - apply WatchlistFacts.run_payload.
  - intros post. unfold useWatchlist.mutated.
    destruct post as [reason|[[] status [[]|]]]; simpl; split;
      try done; try (by intros [? ?]); by eexists.
Qed.

(** C8, witness: the list holds AAPL; adding TSLA succeeds and the reload
    returns both, then removing AAPL fails with a 500. *)
Lemma mutation_reloads_or_keeps_witness :
  let aapl := useWatchlist.Item "AAPL" "AAPL" in
  let tsla := useWatchlist.Item "TSLA" "TSLA" in
  let h0 := useWatchlist.load 0 (Resolved (Response true 200 (Some [aapl]))) useWatchlist.init in
  let h1 := useWatchlist.addTicker "TSLA" "TSLA" (Resolved (Response true 200 (Some tt))) 1
              (Resolved (Response true 200 (Some [aapl; tsla]))) h0 in
  let h2 := useWatchlist.removeTicker "AAPL" (Resolved (Response false 500 None)) 2
              (Resolved (Response true 200 (Some [tsla]))) h1 in
  payload (cells h1) = [aapl; tsla] ∧ cells h2 = cells h1 ∧
  requests h2 = requests h1 ++ [DELETE "/api/watchlist/AAPL"].
Proof.
  intros aapl tsla h0 h1 h2.
  destruct mutation_reloads_or_keeps as (Hadd & Hremove & _).
  destruct (Hadd h0 "TSLA" "TSLA" (Resolved (Response true 200 (Some tt))) 1
              (Resolved (Response true 200 (Some [aapl; tsla])))) as [Hok _].
  destruct (Hok eq_refl) as [_ Hp].
  destruct (Hremove h1 "AAPL" (Resolved (Response false 500 None)) 2
              (Resolved (Response true 200 (Some [tsla])))) as [_ Hfail].
  destruct (Hfail eq_refl) as (Hr & Hc & _).
  split; [exact Hp|]. split; [exact Hc|exact Hr].
Defined.

(** C8, counterexample: the server accepts the removal of AAPL and answers
    204 with no body; [fetchJSON] throws on the body, so the removal counts
    as failed: one line is logged and no GET follows the DELETE. *)
Lemma accepted_mutation_without_reload :
  ¬ (∀ (h : hook (plain (list useWatchlist.item))) (ticker : string) (status : nat)
       (body : option unit) (now : Z) (reload : fetched (list useWatchlist.item)),
       let h' := useWatchlist.removeTicker ticker (Resolved (Response true status body))
                   now reload h in
       requests h' =
         requests h ++ [DELETE ("/api/watchlist/" +:+ ticker); GET "/api/watchlist"]).
Proof.
  intros Hclaim.
  specialize (Hclaim useWatchlist.init "AAPL" 204%nat None 1
                (Resolved (Response true 200 (Some [])))).
  discriminate Hclaim.
Qed.

(** C7.  [handleAddTicker] works on [t], the input trimmed and then put in
    upper case by the runtime's [toUpperCase].  The trimmed input is the
    input without the white space at its two ends, and is empty exactly for
    an input of white space only.  When [t] is empty the handler returns at
    once: no request leaves and nothing changes.  Otherwise the POST carries
    [t] as ticker and as name, and the input field is emptied.  Since
    [toUpperCase] gives the empty text for the empty text only, [t] is empty
    exactly when the input is white space only; and since on ASCII text it
    turns a to z into A to Z, an ASCII input gives a [t] of the same length
    without lower-case letters, and the input bhp.ax gives BHP.AX. *)
Theorem add_normalizes_ticker (toUpperCase : string → string)
    (p : FinSight.page) (h : hook (plain (list useWatchlist.item)))
    (post : fetched unit) (now : Z) (reload : fetched (list useWatchlist.item)) :
  let input := FinSight.tickerInput p in
  let t := toUpperCase (JsString.trim input) in
  let out := FinSight.handleAddTicker toUpperCase post now reload (p, h) in
  (∃ l r, input = l +:+ JsString.trim input +:+ r ∧
          JsString.allWhite l = true ∧ JsString.allWhite r = true) ∧
  JsString.startsWhite (JsString.trim input) = false ∧
  JsString.endsWhite (JsString.trim input) = false ∧
  (JsString.trim input = "" ↔ JsString.allWhite input = true) ∧
  (t = "" → out = (p, h)) ∧
  (t ≠ "" →
   FinSight.tickerInput out.1 = "" ∧
   out.2 = useWatchlist.addTicker t t post now reload h ∧
   ∃ rest, requests out.2 =
           requests h ++ POST "/api/watchlist" [("ticker", t); ("name", t)] :: rest) ∧
  ((∀ s, toUpperCase s = "" ↔ s = "") →
   (t = "" ↔ JsString.allWhite input = true)) ∧
  ((∀ s, JsString.isAscii s = true → toUpperCase s = JsString.upperAscii s) →
   (JsString.isAscii input = true →
    t = JsString.upperAscii (JsString.trim input) ∧
    JsString.noLower t = true ∧
    String.length t = String.length (JsString.trim input)) ∧
   toUpperCase (JsString.trim "bhp.ax") = "BHP.AX" ∧
   toUpperCase (JsString.trim "  bhp.ax ") = "BHP.AX").
Proof.
  intros input t out.
  split; [apply JsStringFacts.trim_split|].
  split; [apply JsStringFacts.trim_edges|].
  split; [apply JsStringFacts.trim_edges|].
  split; [apply JsStringFacts.trim_empty_iff|].
  split.
  { intros Ht. subst out. unfold FinSight.handleAddTicker. simpl.
    fold input. fold t. by rewrite Ht. }
  split.
  { intros Ht. subst out. unfold FinSight.handleAddTicker. simpl. fold input. fold t.
    destruct (JsString.truthy t) eqn:Htr.
    - simpl. repeat split. unfold useWatchlist.addTicker.
      destruct (fetchJSON post).
      + rewrite WatchlistFacts.load_requests. simpl. rewrite <- app_assoc. by eexists.
      + simpl. by eexists.
    - by apply JsStringFacts.truthy_false_iff in Htr. }
  split.
  { intros Hempty. subst t. by rewrite Hempty, JsStringFacts.trim_empty_iff. }
  intros Hascii. split; [|split].
  - intros Hin. subst t.
    rewrite (Hascii _ (JsStringFacts.isAscii_trim _ Hin)).
    split; [done|]. split.
    + apply JsStringFacts.upperAscii_noLower.
    + apply JsStringFacts.upperAscii_length.
  - by rewrite Hascii.
  - by rewrite Hascii.
Qed.

(** C7, witness: the input [" bhp.ax"] with the POST and the reload
    succeeding, an input of a blank and a no-break space, and the runtime's
    method taken on ASCII text. *)
Lemma add_normalizes_ticker_witness :
  let h0 := useWatchlist.init in
  let typed := FinSight.setTickerInput " bhp.ax" FinSight.init in
  let blanks := FinSight.setTickerInput (String " " (String "194" (String "160" "")))
                  FinSight.init in
  let bhp := useWatchlist.Item "BHP.AX" "BHP.AX" in
  (∃ rest,
     requests (FinSight.handleAddTicker JsString.upperAscii
                 (Resolved (Response true 200 (Some tt))) 1
                 (Resolved (Response true 200 (Some [bhp]))) (typed, h0)).2
     = POST "/api/watchlist" [("ticker", "BHP.AX"); ("name", "BHP.AX")] :: rest) ∧
  FinSight.handleAddTicker JsString.upperAscii (Resolved (Response true 200 (Some tt))) 1
    (Resolved (Response true 200 (Some [bhp]))) (blanks, h0) = (blanks, h0) ∧
  JsString.upperAscii (JsString.trim "bhp.ax") = "BHP.AX".
Proof.
  intros h0 typed blanks bhp. split; [|split].
  - destruct (add_normalizes_ticker JsString.upperAscii typed h0
                (Resolved (Response true 200 (Some tt))) 1
                (Resolved (Response true 200 (Some [bhp]))))
      as (_ & _ & _ & _ & _ & Hsend & _).
    destruct Hsend as (_ & _ & rest & Hrest); [discriminate|].
    exists rest. exact Hrest.
  - destruct (add_normalizes_ticker JsString.upperAscii blanks h0
                (Resolved (Response true 200 (Some tt))) 1
                (Resolved (Response true 200 (Some [bhp]))))
      as (_ & _ & _ & _ & _ & _ & Hempty & _).
    destruct (add_normalizes_ticker JsString.upperAscii blanks h0
                (Resolved (Response true 200 (Some tt))) 1
                (Resolved (Response true 200 (Some [bhp]))))
      as (_ & _ & _ & _ & Hreturn & _).
    apply Hreturn. apply (Hempty JsStringFacts.upperAscii_empty_iff). reflexivity.
  - destruct (add_normalizes_ticker JsString.upperAscii typed h0
                (Resolved (Response true 200 (Some tt))) 1
                (Resolved (Response true 200 (Some [bhp]))))
      as (_ & _ & _ & _ & _ & _ & _ & Hascii).
    destruct (Hascii (fun s _ => eq_refl)) as (_ & Hbhp & _). exact Hbhp.
Defined.

(** C4.  In the verify step, with a code entered, [handleBetaVerify] sends
    one verify request and ends with [betaSubmitting] cleared.  If the
    request is answered with a 2xx response whose body can be read, the flow
    moves to the done step and the active plan becomes the [plan] of that
    body, whatever plan was chosen in the pick step.  Otherwise the flow
    stays in the verify step, the active plan is unchanged, and the error is
    the [detail] of the error body when there is a non-empty one, the text
    ["Invalid code. Please try again."] when the error body has none, and the
    generic text when the request or the reading of its body fails. *)
Theorem verify_outcomes (f : fetched FinSight.reply) (p : FinSight.page) :
  FinSight.betaStep p = FinSight.Verify →
  FinSight.blank (FinSight.betaOtp p) = false →
  let p' := FinSight.handleBetaVerify f p in
  FinSight.sent p' =
    FinSight.sent p ++
      [POST "/api/beta-verify" [("email", JsString.trim (FinSight.betaEmail p));
                                ("code", JsString.trim (FinSight.betaOtp p))]] ∧
  FinSight.betaSubmitting p' = false ∧
  FinSight.betaChoice p' = FinSight.betaChoice p ∧
  (∀ tier, FinSight.verified f = Some tier →
     FinSight.betaStep p' = FinSight.Done ∧ FinSight.plan p' = tier ∧
     FinSight.betaError p' = "") ∧
  (FinSight.verified f = None →
     FinSight.betaStep p' = FinSight.Verify ∧ FinSight.plan p' = FinSight.plan p ∧
     FinSight.betaError p' ≠ "" ∧
     (∀ status err, f = Resolved (Response false status (Some err)) →
        FinSight.betaError p' =
          match FinSight.detail err with
          | str (String c s) => String c s
          | _ => "Invalid code. Please try again."
          end) ∧
     ((∀ status err, f ≠ Resolved (Response false status (Some err))) →
        FinSight.betaError p' = "Something went wrong. Please try again.")).
Proof.
  intros Hstep Hotp p'. subst p'. unfold FinSight.handleBetaVerify.
  unfold FinSight.blank in Hotp. rewrite Hotp. simpl.
  destruct f as [reason|[[] status [data|]]]; simpl; repeat split; try done;
    try (by simplify_eq/=).
  - by destruct (FinSight.detail data) as [|[|c s]].
  - intros status' err [= _ ->]. by destruct (FinSight.detail err) as [|[|c s]].
  - intros Hne. by destruct (Hne status data).
Qed.

(** C4, witness: PRO was chosen, the server answers the verify request
    with the plan ELITE. *)
Lemma verify_outcomes_witness :
  let p := FinSight.setBetaOtp "123456"
             (FinSight.setBetaStep FinSight.Verify
                (FinSight.setBetaEmail "a@b.co"
                   (FinSight.choosePlan "PRO" (FinSight.openUpgrade FinSight.init)))) in
  let p' := FinSight.handleBetaVerify
              (Resolved (Response true 200 (Some (FinSight.Reply undefined (str "ELITE"))))) p in
  FinSight.betaChoice p' = "PRO" ∧ FinSight.betaStep p' = FinSight.Done ∧
  FinSight.plan p' = str "ELITE".
Proof.
  intros p p'.
  destruct (verify_outcomes
              (Resolved (Response true 200 (Some (FinSight.Reply undefined (str "ELITE")))))
              p eq_refl eq_refl) as (_ & _ & Hchoice & Hok & _).
  destruct (Hok (str "ELITE") eq_refl) as (Hstep & Hplan & _).
  split; [exact Hchoice|]. split; [exact Hstep|exact Hplan].
Defined.

(** C5.  In the details step, [handleBetaSubmit] with a name or an email
    that is empty (once trimmed) sets the validation error and does nothing
    else: the step stays, no request leaves.  With both present it sends one
    signup request and ends with [betaSubmitting] cleared.  If the request
    is not answered with a 2xx response the flow stays in the details step
    and the error is the [detail] of the error body when there is a non-empty
    one, the generic text otherwise.  If it is, the code is emptied, the
    error is empty and the flow is in the verify step. *)
Theorem submit_outcomes (f : fetched FinSight.reply) (p : FinSight.page) :
  FinSight.betaStep p = FinSight.Form →
  let p' := FinSight.handleBetaSubmit f p in
  (FinSight.betaName p = "" ∨ FinSight.betaEmail p = "" →
   FinSight.blank (FinSight.betaName p) || FinSight.blank (FinSight.betaEmail p) = true) ∧
  (FinSight.blank (FinSight.betaName p) || FinSight.blank (FinSight.betaEmail p) = true →
   p' = FinSight.setBetaError "Please enter your name and email." p ∧
   FinSight.betaStep p' = FinSight.Form ∧
   FinSight.sent p' = FinSight.sent p ∧
   FinSight.betaError p' = "Please enter your name and email.") ∧
  (FinSight.blank (FinSight.betaName p) || FinSight.blank (FinSight.betaEmail p) = false →
   FinSight.sent p' =
     FinSight.sent p ++
       [POST "/api/beta-signup" [("name", JsString.trim (FinSight.betaName p));
                                 ("email", JsString.trim (FinSight.betaEmail p));
                                 ("plan", FinSight.betaChoice p)]] ∧
   FinSight.betaSubmitting p' = false ∧
   (FinSight.signed_up f = false →
      FinSight.betaStep p' = FinSight.Form ∧
      FinSight.betaOtp p' = FinSight.betaOtp p ∧
      FinSight.betaError p' ≠ "" ∧
      (∀ status err, f = Resolved (Response false status (Some err)) →
         FinSight.betaError p' =
           match FinSight.detail err with
           | str (String c s) => String c s
           | _ => "Something went wrong. Please try again."
           end) ∧
      ((∀ status err, f ≠ Resolved (Response false status (Some err))) →
         FinSight.betaError p' = "Something went wrong. Please try again.")) ∧
   (FinSight.signed_up f = true →
      FinSight.betaStep p' = FinSight.Verify ∧
      FinSight.betaOtp p' = "" ∧
      FinSight.betaError p' = "")).
Proof.
  intros Hstep p'. subst p'. unfold FinSight.handleBetaSubmit, FinSight.blank.
  split; [by intros [-> | ->]; rewrite ?orb_true_r|].
  split.
  - intros ->. by repeat split.
  - intros ->. simpl.
    destruct f as [reason|[[] status [err|]]]; simpl; repeat split; try done;
      try (by simplify_eq/=).
    + by destruct (FinSight.detail err) as [|[|c s]].
    + intros status' err' [= _ <-]. by destruct (FinSight.detail err) as [|[|c s]].
    + intros Hne. by destruct (Hne status err).
Qed.

(** C5, witness: an empty email; then a signup that the server refuses
    with a message; then one that it accepts, with a stale code in the
    field. *)
Lemma submit_outcomes_witness :
  let form := FinSight.setBetaOtp "999999"
                (FinSight.setBetaName "Ada"
                   (FinSight.choosePlan "ELITE" (FinSight.openUpgrade FinSight.init))) in
  let full := FinSight.setBetaEmail "ada@b.co" form in
  let refused := Resolved (Response false 422 (Some (FinSight.Reply (str "Email taken") undefined))) in
  let accepted := Resolved (Response true 200 None) in
  (FinSight.betaStep (FinSight.handleBetaSubmit accepted form) = FinSight.Form ∧
   FinSight.sent (FinSight.handleBetaSubmit accepted form) = FinSight.sent form) ∧
  (FinSight.betaStep (FinSight.handleBetaSubmit refused full) = FinSight.Form ∧
   FinSight.betaError (FinSight.handleBetaSubmit refused full) = "Email taken") ∧
  (FinSight.betaStep (FinSight.handleBetaSubmit accepted full) = FinSight.Verify ∧
   FinSight.betaOtp (FinSight.handleBetaSubmit accepted full) = "").
Proof.
  intros form full refused accepted. repeat apply conj.
  - destruct (submit_outcomes accepted form eq_refl) as (_ & Hblank & _).
    exact (proj1 (proj2 (Hblank eq_refl))).
  - destruct (submit_outcomes accepted form eq_refl) as (_ & Hblank & _).
    exact (proj1 (proj2 (proj2 (Hblank eq_refl)))).
  - destruct (submit_outcomes refused full eq_refl) as (_ & _ & Hsent).
    destruct (Hsent eq_refl) as (_ & _ & Hfail & _).
    exact (proj1 (Hfail eq_refl)).
  - destruct (submit_outcomes refused full eq_refl) as (_ & _ & Hsent).
    destruct (Hsent eq_refl) as (_ & _ & Hfail & _).
    destruct (Hfail eq_refl) as (_ & _ & _ & Hdetail & _).
    exact (Hdetail 422%nat (FinSight.Reply (str "Email taken") undefined) eq_refl).
  - destruct (submit_outcomes accepted full eq_refl) as (_ & _ & Hsent).
    destruct (Hsent eq_refl) as (_ & _ & _ & Hok).
    exact (proj1 (Hok eq_refl)).
  - destruct (submit_outcomes accepted full eq_refl) as (_ & _ & Hsent).
    destruct (Hsent eq_refl) as (_ & _ & _ & Hok).
    exact (proj1 (proj2 (Hok eq_refl))).
Defined.

(** * Further properties of the code *)

(** ** [timeAgo] *)

Lemma timeAgo_parsed (getTime : string → option Z) (now : Z) (s : string) (t : Z) :
  JsString.truthy s = true →
  getTime s = Some t →
  let d := now - t in
  let shown := TimeAgo.timeAgo getTime now (str s) in
  (d < 60000 → shown = "just now") ∧
  (60000 ≤ d < 3600000 → shown = pretty (d / 60000) +:+ "m ago" ∧ 1 ≤ d / 60000 < 60) ∧
  (3600000 ≤ d < 86400000 → shown = pretty (d / 3600000) +:+ "h ago" ∧ 1 ≤ d / 3600000 < 24) ∧
  (86400000 ≤ d → shown = pretty (d / 86400000) +:+ "d ago" ∧ 1 ≤ d / 86400000).
Proof.
  intros Hs Ht d shown. subst shown. unfold TimeAgo.timeAgo. rewrite Hs, Ht. simpl.
  fold d.
  assert (d / 60000 / 60 = d / 3600000) as Hh.
  { rewrite Z.div_div by lia. reflexivity. }
  assert (d / 60000 / 60 / 24 = d / 86400000) as Hd.
  { rewrite !Z.div_div by lia. reflexivity. }
  rewrite Hd, Hh.
  repeat split.
  - intros Hlt. assert (d / 60000 < 1) by (apply Z.div_lt_upper_bound; lia).
    destruct (Z.ltb_spec (d / 60000) 1); [done|lia].
  - assert (1 ≤ d / 60000) by (apply Z.div_le_lower_bound; lia).
    assert (d / 60000 < 60) by (apply Z.div_lt_upper_bound; lia).
    destruct (Z.ltb_spec (d / 60000) 1); [lia|].
    destruct (Z.ltb_spec (d / 60000) 60); [done|lia].
  - apply Z.div_le_lower_bound; lia.
  - apply Z.div_lt_upper_bound; lia.
  - assert (60 ≤ d / 60000) by (apply Z.div_le_lower_bound; lia).
    assert (d / 3600000 < 24) by (apply Z.div_lt_upper_bound; lia).
    destruct (Z.ltb_spec (d / 60000) 1); [lia|].
    destruct (Z.ltb_spec (d / 60000) 60); [lia|].
    destruct (Z.ltb_spec (d / 3600000) 24); [done|lia].
  - apply Z.div_le_lower_bound; lia.
  - apply Z.div_lt_upper_bound; lia.
  - assert (60 ≤ d / 60000) by (apply Z.div_le_lower_bound; lia).
    assert (24 ≤ d / 3600000) by (apply Z.div_le_lower_bound; lia).
    destruct (Z.ltb_spec (d / 60000) 1); [lia|].
    destruct (Z.ltb_spec (d / 60000) 60); [lia|].
    destruct (Z.ltb_spec (d / 3600000) 24); [lia|done].
  - apply Z.div_le_lower_bound; lia.
Qed.

(** X1.  [timeAgo] shows a dash for an absent or empty text and "NaNd ago"
    for a text that is no date.  For a text that parses to the time [t] it
    shows "just now" below one minute (also for a time in the future), whole
    minutes below one hour, whole hours below one day and whole days from
    then on; the number shown is the difference divided by the length of the
    unit, rounded down. *)
Theorem timeAgo_buckets (getTime : string → option Z) (now : Z) :
  TimeAgo.timeAgo getTime now undefined = "—" ∧
  TimeAgo.timeAgo getTime now (str "") = "—" ∧
  (∀ s, JsString.truthy s = true → getTime s = None →
     TimeAgo.timeAgo getTime now (str s) = "NaNd ago") ∧
  (∀ s t, JsString.truthy s = true → getTime s = Some t →
     let d := now - t in
     let shown := TimeAgo.timeAgo getTime now (str s) in
     (d < 60000 → shown = "just now") ∧
     (60000 ≤ d < 3600000 → shown = pretty (d / 60000) +:+ "m ago" ∧ 1 ≤ d / 60000 < 60) ∧
     (3600000 ≤ d < 86400000 →
        shown = pretty (d / 3600000) +:+ "h ago" ∧ 1 ≤ d / 3600000 < 24) ∧
     (86400000 ≤ d → shown = pretty (d / 86400000) +:+ "d ago" ∧ 1 ≤ d / 86400000)).
Proof.
  split; [done|]. split; [done|]. split.
  - intros s Hs Hn. unfold TimeAgo.timeAgo. by rewrite Hs, Hn.
  - intros s t Hs Ht. by apply timeAgo_parsed.
Qed.

(** X1, witness: a signal published 7 199 999 ms ago is shown as one
    hour old. *)
Lemma timeAgo_buckets_witness :
  TimeAgo.timeAgo (fun _ => Some 1000) 7200999 (str "2024-01-01T00:00:01Z") = "1h ago".
Proof.
  destruct (timeAgo_buckets (fun _ => Some 1000) 7200999) as (_ & _ & _ & Hparsed).
  destruct (Hparsed "2024-01-01T00:00:01Z" 1000 eq_refl eq_refl) as (_ & _ & Hh & _).
  destruct Hh as [Hh _]; [lia|]. exact Hh.
Defined.

(** ** The code field *)
Module OtpFacts.
Import OtpField.

Lemma stripNonDigits_allDigits s : allDigits (stripNonDigits s) = true.
Proof.
  induction s as [|c s IH]; simpl; [done|].
  destruct (isDigit c) eqn:Hc; simpl; [by rewrite Hc|done].
Qed.

Lemma stripNonDigits_id s : allDigits s = true → stripNonDigits s = s.
Proof.
  induction s as [|c s IH]; simpl; [done|].
  intros [-> Hs]%andb_prop. by rewrite IH.
Qed.

Lemma slice0_allDigits n s : allDigits s = true → allDigits (slice0 n s) = true.
Proof.
  revert s. induction n as [|n IH]; intros [|c s]; simpl; try done.
  intros [-> Hs]%andb_prop. by apply IH.
Qed.

Lemma slice0_length n s : (String.length (slice0 n s) ≤ n)%nat.
Proof.
  revert s. induction n as [|n IH]; intros [|c s]; simpl; try lia.
  specialize (IH s). lia.
Qed.

Lemma slice0_id n s : (String.length s ≤ n)%nat → slice0 n s = s.
Proof.
  revert s. induction n as [|n IH]; intros [|c s]; simpl; try done; try lia.
  intros Hle. rewrite IH; [done|lia].
Qed.

Lemma digit_not_white c s : isDigit c = true → JsString.takeWhite (String c s) = None.
Proof.
  intros Hc. unfold JsString.takeWhite.
  assert (JsString.white1 c = false ∧ (∀ b, JsString.white2 c b = false) ∧
          (∀ b d, JsString.white3 c b d = false)) as (-> & H2 & H3).
  { by destruct c as [[] [] [] [] [] [] [] []]. }
  destruct s as [|b [|d s]]; [done|by rewrite H2|by rewrite H2, H3].
Qed.

(** A text of digits has no white space at its ends: [trim] keeps it. *)
Lemma trim_digits s : allDigits s = true → JsString.trim s = s.
Proof.
  intros Hs. apply JsStringFacts.trim_id.
  - destruct s as [|c s]; [done|]. simpl in Hs. apply andb_prop in Hs as [Hc _].
    unfold JsString.startsWhite. by rewrite digit_not_white.
  - induction s as [|c s IH]; [done|]. simpl in Hs. apply andb_prop in Hs as [Hc Hs].
    cbn [JsString.endsWhite]. rewrite (IH Hs), orb_false_r.
    unfold JsString.isWhite. by rewrite digit_not_white.
Qed.

Lemma onChange_allDigits v : allDigits (onChange v) = true.
Proof. apply slice0_allDigits, stripNonDigits_allDigits. Qed.

Lemma onChange_length v : (String.length (onChange v) ≤ 6)%nat.
Proof. apply slice0_length. Qed.

End OtpFacts.

(** X2.  Whatever arrives in the code field, the code kept is made of
    digits only and has at most six of them; it is the text itself when the
    text already is such a code, so sanitizing twice changes nothing; and
    [trim] leaves it as it is, so the code is sent as it is held. *)
Theorem otp_onChange_sanitizes (value : string) :
  let code := OtpField.onChange value in
  OtpField.allDigits code = true ∧
  (String.length code ≤ 6)%nat ∧
  OtpField.onChange code = code ∧
  JsString.trim code = code ∧
  (OtpField.allDigits value = true → (String.length value ≤ 6)%nat →
   OtpField.onChange value = value) ∧
  (FinSight.blank code = true ↔ code = "").
Proof.
  intros code.
  pose proof (OtpFacts.onChange_allDigits value) as Hd.
  pose proof (OtpFacts.onChange_length value) as Hl.
  assert (∀ v, OtpField.allDigits v = true → (String.length v ≤ 6)%nat →
               OtpField.onChange v = v) as Hid.
  { intros v Hv Hlen. unfold OtpField.onChange.
    rewrite OtpFacts.stripNonDigits_id by done. by apply OtpFacts.slice0_id. }
  split; [done|]. split; [done|]. split; [by apply Hid|].
  split; [by apply OtpFacts.trim_digits|]. split; [apply Hid|].
  unfold FinSight.blank. rewrite (OtpFacts.trim_digits code Hd).
  by destruct code.
Qed.

(** X2, witness: a pasted text with blanks, a dash and eight digits. *)
Lemma otp_onChange_sanitizes_witness :
  OtpField.onChange " 12-34 5678" = "123456" ∧ OtpField.onChange "123456" = "123456".
Proof.
  split; [reflexivity|].
  destruct (otp_onChange_sanitizes "123456") as (_ & _ & _ & _ & Hid & _).
  apply Hid; [reflexivity|simpl; lia].
Defined.

(** ** The counts of the filter tabs *)
Module CountsFacts.
Section CountsFacts.
Context {Id : Type}.
Implicit Types (signals : list (entry Id)) (a : gmap string nat).
Import Counts.

Lemma shown_bump a (s : entry Id) k :
  shown (bump a s) k = (shown a k + if bool_decide (signal s = k) then 1 else 0)%nat.
Proof.
  unfold shown, bump. case_bool_decide as Hk.
  - subst k. by rewrite lookup_insert_eq.
  - rewrite lookup_insert_ne by done. lia.
Qed.

Lemma shown_foldl a signals k :
  shown (foldl bump a signals) k =
    (shown a k + length (List.filter (fun s => bool_decide (signal s = k)) signals))%nat.
Proof.
  revert a. induction signals as [|s signals IH]; intros a; simpl; [lia|].
  rewrite IH, shown_bump. case_bool_decide; simpl; lia.
Qed.

Lemma shown_counts signals k :
  shown (counts signals) k =
    length (List.filter (fun s => bool_decide (signal s = k)) signals).
Proof. unfold counts. rewrite shown_foldl. by unfold shown. Qed.

End CountsFacts.
End CountsFacts.

(** X3.  For each of the tabs BUY, SELL, AVOID and WATCH the count shown on
    the tab is the length of the list shown when that tab is selected, and
    it is at most the count of the ALL view, the whole feed. *)
Theorem counts_match_filtered {Id} (signals : list (entry Id)) (f : string) :
  f ∈ Counts.SIGNAL_TABS →
  Counts.shown (Counts.counts signals) f = length (Gate.filtered f signals) ∧
  (Counts.shown (Counts.counts signals) f ≤ length (Gate.filtered "ALL" signals))%nat.
Proof.
  intros Hf. rewrite CountsFacts.shown_counts. unfold Gate.filtered.
  assert (f ≠ "ALL") as Hne.
  { intros ->. revert Hf. apply (bool_decide_unpack _). vm_compute. exact I. }
  rewrite (bool_decide_eq_false_2 _ Hne). simpl. split; [done|].
  apply filter_length_le.
Qed.

(** X3, witness: a feed with two BUY entries and one SELL entry. *)
Lemma counts_match_filtered_witness :
  Counts.shown
    (Counts.counts [Entry 0 1 "BUY"; Entry 1 2 "SELL"; Entry 2 3 "BUY"]) "BUY" = 2%nat.
Proof.
  destruct (counts_match_filtered (Id:=Z)
              [Entry 0 1 "BUY"; Entry 1 2 "SELL"; Entry 2 3 "BUY"] "BUY") as [Hc _].
  - apply (bool_decide_unpack _). vm_compute. exact I.
  - rewrite Hc. reflexivity.
Defined.

(** ** The free part of the signals view *)
Module FreeViewFacts.
Section FreeViewFacts.
Context {Id : Type}.
Implicit Types (signals : list (entry Id)) (s : entry Id).
Import Gate.

(** The filtered view is the filtered first three entries of the feed
    followed by the filtered rest. *)
Lemma filtered_split filter signals :
  filtered filter signals =
    filtered filter (take 3 signals) ++ filtered filter (drop 3 signals).
Proof.
  unfold filtered. case_bool_decide.
  - by rewrite take_drop.
  - by rewrite <- List.filter_app, take_drop.
Qed.

Lemma filtered_head_short filter signals :
  (length (filtered filter (take 3 signals)) ≤ 3)%nat.
Proof.
  pose proof (length_take signals 3) as Hlen.
  unfold filtered. case_bool_decide.
  - lia.
  - pose proof (List.filter_length_le (fun s => bool_decide (signal s = filter))
                  (take 3 signals)). lia.
Qed.

End FreeViewFacts.
End FreeViewFacts.

(** X4.  On the FREE plan, under any filter, the view starts with the
    entries that pass the filter among the first three of the feed, at most
    three cards in all, and every entry after them is a locked
    placeholder. *)
Theorem free_view_unlocks_prefix `{EqDecision Id}
    (filter : string) (signals : list (entry Id)) :
  distinct_objects signals →
  let k := length (Gate.filtered filter (take 3 signals)) in
  (k ≤ 3)%nat ∧
  ∀ (p : nat) (s : entry Id),
    Gate.filtered filter signals !! p = Some s →
    (Gate.isLocked (str "FREE") signals s = true ↔ (k ≤ p)%nat).
Proof.
  intros Hnd k. split; [apply FreeViewFacts.filtered_head_short|].
  intros p s Hp. rewrite FreeViewFacts.filtered_split in Hp. fold k in Hp.
  apply lookup_app_Some in Hp as [Hhead|[Hge Htail]].
  - pose proof (lookup_lt_Some _ _ _ Hhead) as Hlt. fold k in Hlt.
    destruct (GateFacts.filtered_lookup _ _ _ _ Hhead) as (q & Hq & _ & _).
    apply lookup_take_Some in Hq as [Hq Hq3].
    rewrite (GateFacts.isLocked_iff _ _ _ _ Hnd Hq). split; [intros [_ ?]|]; lia.
  - destruct (GateFacts.filtered_lookup _ _ _ _ Htail) as (q & Hq & _ & _).
    rewrite lookup_drop in Hq.
    rewrite (GateFacts.isLocked_iff _ _ _ _ Hnd Hq). split; [by intros _|].
    intros _. split; [done|lia].
Qed.

(** X4, witness: a feed of five entries under the filter BUY; the BUY
    entries at feed positions 1 and 4 are shown, the first as a card and the
    second locked. *)
Lemma free_view_unlocks_prefix_witness :
  let feed := [Entry 0 1 "SELL"; Entry 1 2 "BUY"; Entry 2 3 "WATCH"; Entry 3 4 "SELL";
               Entry 4 5 "BUY"] in
  Gate.isLocked (str "FREE") feed (Entry 1 2 "BUY") = false ∧
  Gate.isLocked (str "FREE") feed (Entry 4 5 "BUY") = true.
Proof.
  intros feed.
  destruct (free_view_unlocks_prefix (Id:=Z) "BUY" feed) as [_ Hview].
  - unfold distinct_objects. apply (bool_decide_unpack _). vm_compute. exact I.
  - split.
    + apply not_true_is_false. intros Hl.
      apply (Hview 0%nat (Entry 1 2 "BUY") eq_refl) in Hl. simpl in Hl. lia.
    + apply (Hview 1%nat (Entry 4 5 "BUY") eq_refl). simpl. lia.
Defined.

(** ** The rows of the markets tab *)

(** X5.  [allMarkets] lists one row per instrument, the indices first, then
    the commodities, then the crypto assets, each under its name.  A row is
    marked as falling only when its change is a negative number; a change
    text that starts with a plus sign belongs to a row marked as rising
    ([toFixed] itself never writes a plus sign); a quote without [change_pct] gives a rising row with the text ["0%"] and no
    sign, and one with [null] gives ["+0%"]. *)
Theorem allMarkets_rows {Num : Type} (geq0 : Num → bool)
    (toLocaleString toFixed2 : Num → string)
    (indices commodities crypto : list (string * AllMarkets.quote (Num:=Num))) :
  let rows := AllMarkets.allMarkets geq0 toLocaleString toFixed2 indices commodities crypto in
  AllMarkets.name <$> rows = (fst <$> indices) ++ (fst <$> commodities) ++ (fst <$> crypto) ∧
  length rows = (length indices + length commodities + length crypto)%nat ∧
  (∀ r, r ∈ rows → ∃ e, e ∈ indices ++ commodities ++ crypto ∧
     AllMarkets.name r = e.1 ∧
     AllMarkets.change r = AllMarkets.changeText geq0 toFixed2 e.2 ∧
     (AllMarkets.up r = false ↔
        ∃ x, AllMarkets.change_pct e.2 = AllMarkets.Number x ∧ geq0 x = false) ∧
     ((∀ x, AllMarkets.startsPlus (toFixed2 x) = false) →
      AllMarkets.startsPlus (AllMarkets.change r) = true → AllMarkets.up r = true) ∧
     (AllMarkets.change_pct e.2 = AllMarkets.Missing →
        AllMarkets.change r = "0%" ∧ AllMarkets.up r = true) ∧
     (AllMarkets.change_pct e.2 = AllMarkets.Null →
        AllMarkets.change r = "+0%" ∧ AllMarkets.up r = true)).
Proof.
  intros rows. subst rows. unfold AllMarkets.allMarkets. split; [|split].
  - rewrite !fmap_app, <- !list_fmap_compose. done.
  - rewrite !length_app, !length_fmap. lia.
  - assert (∀ d : AllMarkets.quote (Num:=Num),
      (AllMarkets.isUp geq0 d = false ↔
         ∃ x, AllMarkets.change_pct d = AllMarkets.Number x ∧ geq0 x = false) ∧
      ((∀ x, AllMarkets.startsPlus (toFixed2 x) = false) →
       AllMarkets.startsPlus (AllMarkets.changeText geq0 toFixed2 d) = true →
         AllMarkets.isUp geq0 d = true) ∧
      (AllMarkets.change_pct d = AllMarkets.Missing →
         AllMarkets.changeText geq0 toFixed2 d = "0%" ∧ AllMarkets.isUp geq0 d = true) ∧
      (AllMarkets.change_pct d = AllMarkets.Null →
         AllMarkets.changeText geq0 toFixed2 d = "+0%" ∧ AllMarkets.isUp geq0 d = true))
      as Hquote.
    { intros [pr ch]. unfold AllMarkets.isUp, AllMarkets.changeText. simpl.
      destruct ch as [| |x]; simpl.
      1, 2: split; [split; [done|by intros (x & ? & _)]|by repeat split].
      split; [split; [intros Hx; by exists x|by intros (y & [= <-] & Hy)]|].
      split; [|by split].
      intros Hfix. destruct (geq0 x); [done|].
      rewrite JsStringFacts.app_empty.
      specialize (Hfix x). destruct (toFixed2 x) as [|c t]; [done|].
      rewrite JsStringFacts.app_cons. simpl in *. by rewrite Hfix. }
    intros r Hr. rewrite !elem_of_app in Hr.
    destruct Hr as [Hr|[Hr|Hr]]; apply list_elem_of_fmap in Hr as (e & -> & He);
      exists e; (split; [rewrite !elem_of_app; by auto|]); simpl;
      (split; [done|]); (split; [done|]); apply Hquote.
Qed.

(** X5, witness: one index that rises, one commodity that falls, one crypto
    asset without a change. *)
Lemma allMarkets_rows_witness :
  AllMarkets.name <$>
    AllMarkets.allMarkets (fun x => 0 <=? x) (fun x => pretty x) (fun x => pretty x)
      [("ASX 200", AllMarkets.Quote (AllMarkets.Number 7800) (AllMarkets.Number 1))]
      [("Gold", AllMarkets.Quote (AllMarkets.Number 2300) (AllMarkets.Number (-2)))]
      [("BTC", AllMarkets.Quote AllMarkets.Null AllMarkets.Missing)]
  = ["ASX 200"; "Gold"; "BTC"].
Proof.
  exact (proj1 (allMarkets_rows (fun x => 0 <=? x) (fun x => pretty x) (fun x => pretty x)
      [("ASX 200", AllMarkets.Quote (AllMarkets.Number 7800) (AllMarkets.Number 1))]
      [("Gold", AllMarkets.Quote (AllMarkets.Number 2300) (AllMarkets.Number (-2)))]
      [("BTC", AllMarkets.Quote AllMarkets.Null AllMarkets.Missing)])).
Defined.

(** ** Runs of a polling hook *)
Module RunFacts.
Section RunFacts.
Context {S T : Type}.
Variable resolve : Z → T → S → S.
Variable finish : S → S.
Variable message : string.
Implicit Types (h : hook S) (evs : list (Poller.event (T:=T))).

Local Abbreviation step := (Poller.step resolve finish message).
Local Abbreviation run := (Poller.run resolve finish message).

Lemma run_snoc h evs e : run h (evs ++ [e]) = step (run h evs) e.
Proof. unfold Poller.run. by rewrite foldl_app. Qed.

(** The cells change only through [resolve] and [finish]. *)
Lemma step_cells h e :
  cells (step h e) = cells h ∨
  cells (step h e) = finish (cells h) ∨
  ∃ now data, cells (step h e) = finish (resolve now data (cells h)).
Proof.
  destruct e as [url| |i|now f]; simpl.
  - by left.
  - left. unfold Poller.cleanup. by destruct (interval h).
  - left. unfold Poller.tick. by destruct (timers h !! i).
  - unfold Poller.load_resume. destruct (inflight h) as [|n]; [by left|].
    rewrite PollerFacts.load_body_cells. unfold Poller.settle_cells. simpl.
    destruct (fetchJSON f) as [data|e]; [right; right; by exists now, data|by right; left].
Qed.

Lemma run_cells_invariant (P : S → Prop) h evs :
  (∀ now data s, P s → P (resolve now data s)) →
  (∀ s, P s → P (finish s)) →
  P (cells h) → P (cells (run h evs)).
Proof.
  intros Hres Hfin. unfold Poller.run. revert h.
  induction evs as [|e evs IH]; intros h Hh; simpl; [done|].
  apply IH. destruct (step_cells h e) as [->|[->|(now & data & ->)]]; auto.
Qed.

(** Attempts settled so far: the requests issued that are no more in
    flight.  While there is none the cells are those of the start; as soon as
    there is one the cells have gone through [finish]. *)
Lemma run_settled (s0 : S) evs :
  let h := run (Poller.initial s0) evs in
  (inflight h ≤ length (requests h))%nat ∧
  (inflight h = length (requests h) → cells h = s0) ∧
  (inflight h ≠ length (requests h) →
   ∃ s, cells h = finish s).
Proof.
  induction evs as [|e evs IH] using rev_ind; [by repeat split|].
  rewrite run_snoc. cbv zeta in *. set (h := run (Poller.initial s0) evs) in *.
  destruct IH as (Hle & Hall & Hsome).
  destruct e as [url| |i|now f]; simpl.
  - unfold Poller.effect, Poller.setInterval, Poller.load_begin. simpl.
    rewrite length_app. simpl. repeat split; [lia|intros; apply Hall; lia|].
    intros; apply Hsome; lia.
  - destruct (PollerFacts.cleanup_keeps h) as (-> & -> & -> & _). done.
  - unfold Poller.tick. destruct (timers h !! i); [|done].
    unfold Poller.load_begin. simpl. rewrite length_app. simpl.
    repeat split; [lia|intros; apply Hall; lia|]. intros; apply Hsome; lia.
  - unfold Poller.load_resume. destruct (inflight h) as [|n] eqn:Hin; [by rewrite Hin|].
    set (h' := Hook _ _ _ _ _ _ _).
    destruct (PollerFacts.load_body_others resolve finish message now f h')
      as (-> & -> & _).
    rewrite PollerFacts.load_body_cells. subst h'. simpl.
    repeat split; [lia|lia|]. intros _. unfold Poller.settle_cells.
    destruct (fetchJSON _); by eexists.
Qed.

(** At most one interval under the order of React. *)
Lemma run_alternates h evs :
  Poller.tidy h →
  Lifecycle.alternates (bool_decide (is_Some (interval h))) evs = true →
  Poller.tidy (run h evs).
Proof.
  unfold Poller.run. revert h.
  induction evs as [|e evs IH]; intros h Ht Halt; simpl; [done|].
  assert (Poller.tidy (step h e)) as Ht'.
  { apply PollerFacts.tidy_step; [done|]. intros He.
    destruct e; simplify_eq/=. apply andb_prop in Halt as [Hn _].
    apply negb_true_iff, bool_decide_eq_false in Hn.
    destruct (interval h); [|done]. by destruct Hn. }
  apply IH; [done|].
  destruct e as [url| |i|now f]; simpl in *.
  - by apply andb_prop in Halt as [_ Halt].
  - apply andb_prop in Halt as [_ Halt].
    destruct (PollerFacts.cleanup_stops_timers resolve finish message h Ht) as [_ ->].
    rewrite bool_decide_eq_false_2; [done|]. by intros [? ?].
  - unfold Poller.tick. by destruct (timers h !! i).
  - unfold Poller.load_resume. destruct (inflight h); [done|].
    set (h' := Hook _ _ _ _ _ _ _).
    by destruct (PollerFacts.load_body_others resolve finish message now f h')
      as (_ & _ & _ & _ & ->).
Qed.

End RunFacts.
End RunFacts.

(** X6.  In the hooks with an interval ([useMarkets] and [useChartData],
    which hold one payload, and [useSignals]) [loading] is true exactly as
    long as no attempt has settled, that is as long as every request issued
    is still in flight; the first settlement, whatever its outcome, clears it
    for good.  Until then the hook holds the values it started with. *)
Theorem loading_until_first_settlement :
  (∀ (T : Type) (v : T) (message : string) (evs : list Poller.event),
     let h := Poller.run (fun _ data => setPayload data) (setLoading false) message
                (Poller.initial (Plain v true)) evs in
     (inflight h ≤ length (requests h))%nat ∧
     (loading (cells h) = true ↔ inflight h = length (requests h)) ∧
     (loading (cells h) = true → payload (cells h) = v)) ∧
  (∀ `{Countable Id} (evs : list Poller.event),
     let h := useSignals.run (Id:=Id) useSignals.init evs in
     (inflight h ≤ length (requests h))%nat ∧
     (useSignals.sigLoading (cells h) = true ↔ inflight h = length (requests h)) ∧
     (useSignals.sigLoading (cells h) = true →
      cells h = useSignals.State [] true None None)).
Proof.
  split.
  - intros T v message evs h.
    destruct (RunFacts.run_settled (fun _ data => setPayload data) (setLoading false)
                message (Plain v true) evs) as (Hle & Hall & Hsome).
    fold h in Hle, Hall, Hsome.
    destruct (decide (inflight h = length (requests h))) as [Heq|Hne].
    + rewrite (Hall Heq). by repeat split.
    + destruct (Hsome Hne) as [s ->]. by repeat split.
  - intros Id ? ? evs h.
    destruct (RunFacts.run_settled useSignals.resolve useSignals.finish
                useSignals.message (useSignals.State [] true None None) evs)
      as (Hle & Hall & Hsome).
    change (Poller.run _ _ _ _ evs) with h in Hle, Hall, Hsome.
    destruct (decide (inflight h = length (requests h))) as [Heq|Hne].
    + rewrite (Hall Heq). by repeat split.
    + destruct (Hsome Hne) as [s ->]. by repeat split.
Qed.

(** X6, witness: [useChartData] after its effect and one interval, with
    both fetches in flight, and after the first of them has failed. *)
Lemma loading_until_first_settlement_witness :
  let waiting := [Poller.Effect useChartData.url; Poller.Tick 0] in
  let run := Poller.run (fun _ data => setPayload (T:=list nat) data) (setLoading false)
               useChartData.message useChartData.init in
  loading (cells (run waiting)) = true ∧
  loading (cells (run (waiting ++ [Poller.Settle 3 (Rejected "offline")]))) = false.
Proof.
  intros waiting run.
  destruct loading_until_first_settlement as [Hplain _].
  split.
  - destruct (Hplain (list nat) [] useChartData.message waiting) as (_ & Hiff & _).
    apply Hiff. reflexivity.
  - destruct (Hplain (list nat) [] useChartData.message
                (waiting ++ [Poller.Settle 3 (Rejected "offline")])) as (_ & Hiff & _).
    apply not_true_is_false. intros Hl. apply Hiff in Hl.
    vm_compute in Hl. discriminate Hl.
Defined.

(** X7.  When the effect and its clean-up are run in alternation, starting
    with the effect, a hook never has more than one interval: the table of
    intervals holds the one of the effect in place and nothing else, and is
    empty after a clean-up. *)
Theorem one_interval_at_a_time {S T : Type}
    (resolve : Z → T → S → S) (finish : S → S) (message : string)
    (s0 : S) (evs : list (Poller.event (T:=T))) :
  Lifecycle.alternates false evs = true →
  let h := Poller.run resolve finish message (Poller.initial s0) evs in
  (size (timers h) ≤ 1)%nat ∧
  (interval h = None → timers h = ∅) ∧
  (∀ i, interval h = Some i → dom (timers h) = {[ i ]}).
Proof.
  intros Halt h.
  assert (Poller.tidy h) as Ht.
  { by apply RunFacts.run_alternates. }
  unfold Poller.tidy in Ht. destruct (interval h) as [i|].
  - destruct Ht as [_ Hdom]. split; [|split; [done|]].
    + rewrite <- size_dom, Hdom, size_singleton. lia.
    + intros j Hj. injection Hj as <-. exact Hdom.
  - rewrite Ht. split; [|by split]. rewrite map_size_empty. lia.
Qed.

(** X7, witness: [useSignals] mounted on the FREE plan, then re-run for
    the PRO plan, with intervals firing in between. *)
Lemma one_interval_at_a_time_witness :
  dom (timers (useSignals.run (Id:=Z) useSignals.init
                 [Poller.Effect (useSignals.url (str "FREE")); Poller.Tick 0;
                  Poller.Cleanup; Poller.Effect (useSignals.url (str "PRO"));
                  Poller.Tick 0; Poller.Tick 1]))
  = {[ 1%nat ]}.
Proof.
  destruct (one_interval_at_a_time (useSignals.resolve (Id:=Z)) useSignals.finish
              useSignals.message (useSignals.State [] true None None)
              [Poller.Effect (useSignals.url (str "FREE")); Poller.Tick 0;
               Poller.Cleanup; Poller.Effect (useSignals.url (str "PRO"));
               Poller.Tick 0; Poller.Tick 1] eq_refl) as (_ & _ & Hdom).
  apply Hdom. reflexivity.
Defined.

(** X8.  In [useSignals], started from its initial state, a non-empty feed
    always comes with a flagged id, and a flagged id with the time of a
    fetch.  Nothing resets [newId]: once it holds an id, it holds one after
    whatever events follow, also when the feed is empty again; so once the
    first non-empty feed has arrived, [newId] is never empty again. *)
Theorem feed_always_has_flagged_id `{Countable Id} (evs later : list Poller.event) :
  let h := useSignals.run (Id:=Id) useSignals.init evs in
  let h' := useSignals.run h later in
  (useSignals.signals (cells h) ≠ [] → is_Some (useSignals.newId (cells h))) ∧
  (is_Some (useSignals.newId (cells h)) → is_Some (useSignals.lastFetched (cells h))) ∧
  (useSignals.signals (cells h) ≠ [] → is_Some (useSignals.lastFetched (cells h))) ∧
  (is_Some (useSignals.newId (cells h)) → is_Some (useSignals.newId (cells h'))) ∧
  (useSignals.signals (cells h) ≠ [] → is_Some (useSignals.newId (cells h'))).
Proof.
  intros h h'.
  assert ((useSignals.signals (cells h) ≠ [] → is_Some (useSignals.newId (cells h))) ∧
          (is_Some (useSignals.newId (cells h)) →
           is_Some (useSignals.lastFetched (cells h)))) as [H1 H2].
  { subst h. unfold useSignals.run.
    apply (RunFacts.run_cells_invariant useSignals.resolve useSignals.finish
             useSignals.message
             (fun st => (useSignals.signals st ≠ [] → is_Some (useSignals.newId st)) ∧
                        (is_Some (useSignals.newId st) →
                         is_Some (useSignals.lastFetched st)))).
    - intros now data s [Hs Hn]. unfold useSignals.resolve. simpl. split; [|by eauto].
      intros Hdata. destruct (useSignals.newest (useSignals.signals s) data) eqn:Hnew;
        [by eauto|].
      apply Hs. intros Hprev. rewrite Hprev in Hnew.
      destruct data as [|x data]; [done|].
      by rewrite SignalsFacts.newest_empty_prev in Hnew.
    - by intros s [Hs Hn].
    - simpl. split; [done|]. by intros [? ?]. }
  assert (is_Some (useSignals.newId (cells h)) →
          is_Some (useSignals.newId (cells h'))) as H3.
  { intros Hset. subst h'. unfold useSignals.run.
    apply (RunFacts.run_cells_invariant useSignals.resolve useSignals.finish
             useSignals.message (fun st => is_Some (useSignals.newId st))); [| |done].
    - intros now data s Hs. unfold useSignals.resolve. simpl.
      by destruct (useSignals.newest (useSignals.signals s) data); eauto.
    - by intros s Hs. }
  auto 10.
Qed.

(** X8, witness: a first fetch with one entry, then an interval whose fetch
    returns an empty feed; the id flagged by the first fetch is still
    held. *)
Lemma feed_always_has_flagged_id_witness :
  is_Some (useSignals.newId (cells (useSignals.run (Id:=Z)
    (useSignals.run useSignals.init
       [Poller.Effect (useSignals.url (str "FREE"));
        Poller.Settle 1 (Resolved (Response true 200 (Some [Entry 0 5 "BUY"])))])
    [Poller.Tick 0; Poller.Settle 2 (Resolved (Response true 200 (Some [])))]))).
Proof.
  apply (feed_always_has_flagged_id (Id:=Z)
    [Poller.Effect (useSignals.url (str "FREE"));
     Poller.Settle 1 (Resolved (Response true 200 (Some [Entry 0 5 "BUY"])))]
    [Poller.Tick 0; Poller.Settle 2 (Resolved (Response true 200 (Some [])))]).
  discriminate.
Defined.

(** ** The upgrade dialog *)
Module DialogFacts.
Import FinSight Dialog.

(** The handlers are their two halves run one after the other. *)
Lemma handleBetaSubmit_halves f p :
  handleBetaSubmit f p =
    let r := submit_begin p in if r.2 then submit_settle f r.1 else r.1.
Proof.
  unfold handleBetaSubmit, submit_begin, submit_settle.
  destruct (_ || _); [done|]. simpl. by destruct f as [?|[[] ? [?|]]].
Qed.

Lemma handleBetaVerify_halves f p :
  handleBetaVerify f p =
    let r := verify_begin p in if r.2 then verify_settle f r.1 else r.1.
Proof.
  unfold handleBetaVerify, verify_begin, verify_settle.
  destruct (negb _); [done|]. simpl. by destruct f as [?|[[] ? [?|]]].
Qed.

Lemma kept_submit_settle f p : kept p → kept (submit_settle f p).
Proof.
  unfold kept, submit_settle. intros (Hd & Hl & Hc & Hs).
  destruct f as [?|[[] ? [?|]]]; simpl; repeat split; try done; lia.
Qed.

Lemma kept_verify_settle f p : kept p → kept (verify_settle f p).
Proof.
  unfold kept, verify_settle. intros (Hd & Hl & Hc & Hs).
  by destruct f as [?|[[] ? [?|]]].
Qed.

Lemma kept_submit_begin p : kept p → kept (submit_begin p).1.
Proof.
  unfold kept, submit_begin. intros (Hd & Hl & Hc & Hs).
  destruct (negb (JsString.truthy (JsString.trim (betaName p)))) eqn:Hn; simpl; [done|].
  destruct (negb (JsString.truthy (JsString.trim (betaEmail p)))) eqn:He; simpl; [done|].
  repeat split; try done. apply Forall_app. split; [done|].
  apply Forall_singleton. apply orb_true_iff. left. unfold signup_ok, POST.
  apply negb_false_iff in Hn, He. rewrite Hn, He, !JsStringFacts.trim_idem.
  rewrite !bool_decide_eq_true_2 by done. simpl.
  destruct Hc as [-> | ->]; done.
Qed.

Lemma kept_verify_begin p : kept p → kept (verify_begin p).1.
Proof.
  unfold kept, verify_begin. intros (Hd & Hl & Hc & Hs).
  destruct (negb (JsString.truthy (JsString.trim (betaOtp p)))) eqn:Hn; simpl; [done|].
  repeat split; try done. apply Forall_app. split; [done|].
  apply Forall_singleton. apply orb_true_iff. right. unfold verify_ok, POST.
  apply negb_false_iff in Hn. rewrite (OtpFacts.trim_digits _ Hd) in *.
  rewrite Hd, Hn. simpl. by apply Nat.leb_le.
Qed.

Lemma kept_step s e : kept (view s) → kept (view (step s e)).
Proof.
  intros Hk. pose proof Hk as (Hd & Hl & Hc & Hs).
  destruct e as [| |elite|v|v| | | |v| | | |f|f]; simpl;
    repeat match goal with
           | |- context [if ?b then _ else _] => destruct b
           end; simpl; try done;
    try (by apply kept_submit_begin); try (by apply kept_verify_begin);
    try (unfold kept; simpl; repeat split; auto; first
           [ lia | apply OtpFacts.onChange_allDigits | apply OtpFacts.onChange_length ]).
  - destruct (submits s); [done|]. by apply kept_submit_settle.
  - destruct (verifies s); [done|]. by apply kept_verify_settle.
Qed.

Lemma kept_run s evs : kept (view s) → kept (view (run s evs)).
Proof.
  unfold run. revert s. induction evs as [|e evs IH]; intros s Hk; simpl; [done|].
  by apply IH, kept_step.
Qed.

Lemma kept_start : kept (view start).
Proof. unfold kept. simpl. repeat split; auto. lia. Qed.

End DialogFacts.

(** X9.  Whatever the user and the network do from the first render on,
    every request the dialog has sent is either a signup request with a
    non-empty name and email, both without white space around them, and the
    plan PRO or ELITE, or a verify request whose code consists of one to six
    digits; the code held in the field is always made of at most six digits
    and the chosen plan is PRO or ELITE. *)
Theorem dialog_requests_well_formed (evs : list Dialog.event) :
  let p := Dialog.view (Dialog.run Dialog.start evs) in
  Forall (fun r => Dialog.signup_ok r || Dialog.verify_ok r = true) (FinSight.sent p) ∧
  OtpField.allDigits (FinSight.betaOtp p) = true ∧
  (String.length (FinSight.betaOtp p) ≤ 6)%nat ∧
  (FinSight.betaChoice p = "PRO" ∨ FinSight.betaChoice p = "ELITE").
Proof.
  intros p.
  destruct (DialogFacts.kept_run Dialog.start evs DialogFacts.kept_start)
    as (Hd & Hl & Hc & Hs).
  done.
Qed.

(** X10.  In the verify step the button calls [handleBetaVerify] only when
    nothing is being submitted and the code has six characters, but the Enter
    key calls it with any code: for every non-empty code held, also one
    shorter than six digits, a verify request leaves with that code; for an
    empty code no request leaves and the error asks for the code. *)
Theorem enter_skips_length_check (evs : list Dialog.event) :
  let s := Dialog.run Dialog.start evs in
  let p := Dialog.view s in
  let request := POST "/api/beta-verify"
                   [("email", JsString.trim (FinSight.betaEmail p));
                    ("code", FinSight.betaOtp p)] in
  Dialog.shows FinSight.Verify p = true →
  (FinSight.betaSubmitting p = true ∨ (String.length (FinSight.betaOtp p) < 6)%nat →
   Dialog.step s Dialog.ClickVerify = s) ∧
  (FinSight.betaSubmitting p = false → String.length (FinSight.betaOtp p) = 6%nat →
   FinSight.sent (Dialog.view (Dialog.step s Dialog.ClickVerify)) = FinSight.sent p ++ [request]) ∧
  (FinSight.betaOtp p ≠ "" →
   FinSight.sent (Dialog.view (Dialog.step s Dialog.EnterVerify)) = FinSight.sent p ++ [request] ∧
   Dialog.verifies (Dialog.step s Dialog.EnterVerify) = Datatypes.S (Dialog.verifies s)) ∧
  (FinSight.betaOtp p = "" →
   Dialog.step s Dialog.EnterVerify =
     Dialog.on_view (FinSight.setBetaError "Please enter the verification code.") s).
Proof.
  intros s p request Hshows.
  destruct (dialog_requests_well_formed evs) as (_ & Hd & Hl & _).
  fold s in Hd, Hl. fold p in Hd, Hl.
  assert (FinSight.betaOtp p ≠ "" →
          Dialog.verify_begin p =
            (FinSight.fetch request
               (FinSight.setBetaSubmitting true (FinSight.setBetaError "" p)), true)) as Hsend.
  { intros Hne. unfold Dialog.verify_begin. subst request.
    rewrite (OtpFacts.trim_digits _ Hd). by destruct (FinSight.betaOtp p). }
  repeat split.
  - intros Hdis. simpl. fold p. rewrite Hshows. unfold OtpField.verifyDisabled.
    destruct Hdis as [-> | Hlt]; [done|].
    apply Nat.ltb_lt in Hlt. rewrite Hlt. by rewrite orb_true_r.
  - intros Hsub Hlen. simpl. fold p. rewrite Hshows. unfold OtpField.verifyDisabled.
    rewrite Hsub, Hlen. simpl. unfold Dialog.begin_verify. fold p.
    rewrite Hsend; [done|]. intros Hempty. by rewrite Hempty in Hlen.
  - simpl. fold p. rewrite Hshows. unfold Dialog.begin_verify. fold p. by rewrite Hsend.
  - simpl. fold p. rewrite Hshows. unfold Dialog.begin_verify. fold p. by rewrite Hsend.
  - intros Hempty. simpl. fold p. rewrite Hshows.
    unfold Dialog.begin_verify, Dialog.verify_begin, Dialog.on_view. fold p.
    by rewrite Hempty.
Qed.

(** X10, witness: the user picks PRO, signs up, types the three digits 123
    and presses Enter. *)
Lemma enter_skips_length_check_witness :
  let evs := [Dialog.ClickUpgrade; Dialog.ClickPlan false; Dialog.TypeName "Ada";
              Dialog.TypeEmail "ada@b.co"; Dialog.ClickSubmit;
              Dialog.SignupSettles (Resolved (Response true 200 None));
              Dialog.TypeOtp "123"] in
  let s := Dialog.run Dialog.start evs in
  Dialog.step s Dialog.ClickVerify = s ∧
  FinSight.sent (Dialog.view (Dialog.step s Dialog.EnterVerify)) =
    FinSight.sent (Dialog.view s) ++
      [POST "/api/beta-verify" [("email", "ada@b.co"); ("code", "123")]].
Proof.
  intros evs s.
  destruct (enter_skips_length_check evs eq_refl) as (Hclick & _ & Henter & _).
  split.
  - apply Hclick. right. vm_compute. lia.
  - destruct Henter as [Hsent _]; [discriminate|exact Hsent].
Defined.

(** X11.  The active plan has one writer: an event changes [plan], or
    brings the flow to the done step, only if it is the arrival of a verify
    response with a readable 2xx body while a verify request is in flight,
    and then the plan is the one of that body.  Hence no sequence of events
    without such a response changes the plan or reaches the done step. *)
Theorem plan_written_only_by_verification :
  (∀ (s : Dialog.session) (e : Dialog.event),
     let s' := Dialog.step s e in
     FinSight.plan (Dialog.view s') ≠ FinSight.plan (Dialog.view s) ∨
     (FinSight.betaStep (Dialog.view s') = FinSight.Done ∧
      FinSight.betaStep (Dialog.view s) ≠ FinSight.Done) →
     ∃ f tier, e = Dialog.VerifySettles f ∧ Dialog.verifies s ≠ 0%nat ∧
               FinSight.verified f = Some tier ∧
               FinSight.plan (Dialog.view s') = tier ∧
               FinSight.betaStep (Dialog.view s') = FinSight.Done) ∧
  (∀ (s : Dialog.session) (evs : list Dialog.event),
     forallb (fun e => negb (Dialog.activates e)) evs = true →
     FinSight.plan (Dialog.view (Dialog.run s evs)) = FinSight.plan (Dialog.view s) ∧
     (FinSight.betaStep (Dialog.view s) ≠ FinSight.Done →
      FinSight.betaStep (Dialog.view (Dialog.run s evs)) ≠ FinSight.Done)).
Proof.
  assert (∀ (s : Dialog.session) (e : Dialog.event),
            Dialog.activates e = false ∨ Dialog.verifies s = 0%nat →
            FinSight.plan (Dialog.view (Dialog.step s e)) = FinSight.plan (Dialog.view s) ∧
            (FinSight.betaStep (Dialog.view s) ≠ FinSight.Done →
             FinSight.betaStep (Dialog.view (Dialog.step s e)) ≠ FinSight.Done)) as Hframe.
  { intros s e Hact. destruct e as [| |elite|v|v| | | |v| | | |f|f]; simpl in *;
      unfold Dialog.begin_submit, Dialog.begin_verify, Dialog.submit_begin,
        Dialog.verify_begin;
      repeat match goal with
             | |- context [if ?b then _ else _] => destruct b
             end; simpl; try done.
    - destruct (Dialog.submits s); [done|]. simpl. unfold Dialog.submit_settle.
      by destruct f as [?|[[] ? [?|]]].
    - destruct (Dialog.verifies s); [done|]. simpl. unfold Dialog.verify_settle.
      destruct Hact as [Hact|?]; [|done].
      apply bool_decide_eq_false in Hact.
      destruct f as [?|[[] ? [?|]]]; simpl in *; try done.
      by destruct Hact. }
  split.
  - intros s e s' Hchange.
    destruct (Dialog.activates e) eqn:Hact.
    + destruct e as [| |elite|v|v| | | |v| | | |f|f]; try done. simpl in Hact.
      apply bool_decide_eq_true in Hact as [tier Htier].
      destruct (Dialog.verifies s) as [|n] eqn:Hn.
      { destruct (Hframe s (Dialog.VerifySettles f) (or_intror Hn)) as [Hp Hs].
        subst s'. destruct Hchange as [?|[? ?]]; [done|]. by destruct Hs. }
      exists f, tier. subst s'. simpl. rewrite Hn. simpl.
      repeat split; try done.
      * unfold Dialog.verify_settle, FinSight.verified in *.
        destruct f as [?|[[] ? [?|]]]; simplify_eq/=. done.
      * unfold Dialog.verify_settle, FinSight.verified in *.
        destruct f as [?|[[] ? [?|]]]; simplify_eq/=. done.
    + destruct (Hframe s e (or_introl Hact)) as [Hp Hs].
      subst s'. destruct Hchange as [?|[? ?]]; [done|]. by destruct Hs.
  - intros s evs. unfold Dialog.run. revert s.
    induction evs as [|e evs IH]; intros s Hevs; simpl; [done|].
    simpl in Hevs. apply andb_prop in Hevs as [He Hevs].
    apply negb_true_iff in He.
    destruct (Hframe s e (or_introl He)) as [Hp Hs].
    destruct (IH (Dialog.step s e) Hevs) as [Hp' Hs']. split; [congruence|auto].
Qed.

(** X11, witness: a failed verification after a signup leaves the plan
    FREE. *)
Lemma plan_written_only_by_verification_witness :
  FinSight.plan (Dialog.view (Dialog.run Dialog.start
    [Dialog.ClickUpgrade; Dialog.ClickPlan true; Dialog.TypeName "Ada";
     Dialog.TypeEmail "ada@b.co"; Dialog.EnterSubmit;
     Dialog.SignupSettles (Resolved (Response true 200 None));
     Dialog.TypeOtp "000000"; Dialog.ClickVerify;
     Dialog.VerifySettles
       (Resolved (Response false 400 (Some (FinSight.Reply (str "Wrong code") undefined))))]))
  = str "FREE".
Proof.
  exact (proj1 (proj2 plan_written_only_by_verification Dialog.start
    [Dialog.ClickUpgrade; Dialog.ClickPlan true; Dialog.TypeName "Ada";
     Dialog.TypeEmail "ada@b.co"; Dialog.EnterSubmit;
     Dialog.SignupSettles (Resolved (Response true 200 None));
     Dialog.TypeOtp "000000"; Dialog.ClickVerify;
     Dialog.VerifySettles
       (Resolved (Response false 400 (Some (FinSight.Reply (str "Wrong code") undefined))))]
    eq_refl)).
Defined.

(** X12.  Once the plan is not FREE, the dialog is closed and no verify
    request is in flight, the flow cannot be entered again: whatever happens
    next, the dialog stays closed, the plan stays as it is and no further
    request leaves. *)
Theorem upgraded_page_never_reopens (s : Dialog.session) (evs : list Dialog.event) :
  FinSight.plan (Dialog.view s) ≠ str "FREE" →
  FinSight.showUpgrade (Dialog.view s) = false →
  Dialog.verifies s = 0%nat →
  let s' := Dialog.run s evs in
  FinSight.showUpgrade (Dialog.view s') = false ∧
  FinSight.plan (Dialog.view s') = FinSight.plan (Dialog.view s) ∧
  FinSight.sent (Dialog.view s') = FinSight.sent (Dialog.view s) ∧
  Dialog.verifies s' = 0%nat.
Proof.
  intros Hplan Hclosed Hver s'. subst s'. unfold Dialog.run. revert s Hplan Hclosed Hver.
  induction evs as [|e evs IH]; intros s Hplan Hclosed Hver; simpl; [done|].
  assert (FinSight.showUpgrade (Dialog.view (Dialog.step s e)) = false ∧
          FinSight.plan (Dialog.view (Dialog.step s e)) = FinSight.plan (Dialog.view s) ∧
          FinSight.sent (Dialog.view (Dialog.step s e)) = FinSight.sent (Dialog.view s) ∧
          Dialog.verifies (Dialog.step s e) = 0%nat) as (H1 & H2 & H3 & H4).
  { assert (strict_eq (FinSight.plan (Dialog.view s)) "FREE" = false) as Hfree.
    { apply not_true_is_false. intros Hf. by apply GateFacts.strict_eq_true in Hf. }
    destruct e as [| |elite|v|v| | | |v| | | |f|f]; simpl;
      unfold Dialog.shows; rewrite ?Hfree, ?Hclosed, ?Hver; simpl; try done.
    destruct (Dialog.submits s); [done|]. simpl. unfold Dialog.submit_settle.
    by destruct f as [?|[[] ? [?|]]]. }
  destruct (IH (Dialog.step s e)) as (H1' & H2' & H3' & H4'); [congruence|done|done|].
  repeat split; congruence.
Qed.

(** X12, witness: the page after a verification that activated ELITE and
    the closing of the dialog; the clicks that follow do nothing. *)
Lemma upgraded_page_never_reopens_witness :
  let s := Dialog.Session
             (FinSight.setShowUpgrade false
                (FinSight.setBetaStep FinSight.Done (FinSight.setPlan (str "ELITE") FinSight.init)))
             0 0 in
  FinSight.showUpgrade
    (Dialog.view (Dialog.run s [Dialog.ClickUpgrade; Dialog.ClickPlan false; Dialog.EnterVerify]))
  = false.
Proof.
  intros s.
  apply (upgraded_page_never_reopens s
           [Dialog.ClickUpgrade; Dialog.ClickPlan false; Dialog.EnterVerify]);
    [discriminate|reflexivity|reflexivity].
Defined.
